(** * network-helper.ts: the GraphQL operation executor of vscode-graphql-notebook

    A shallow embedding of [src/network-helper.ts] (class [NetworkHelper] and
    the module-level [formatData]) together with the part of the JavaScript
    run time its results depend on: truthiness, [JSON.stringify] with a
    numeric indent, [Error.prototype.toString], [String.prototype.replace]
    with the pattern [/^http/], promises settled by [async] functions and
    [Promise.all], and [try]/[catch].

    The third-party libraries (urql, graphql-ws, wonka, node-fetch, the
    WHATWG [URL] class, the VS Code API) are not part of the program: their
    constructors are modelled by the options they are called with, and
    whether a call throws is left to an arbitrary oracle ([Externals]). *)

From Stdlib Require Import String Ascii List ZArith Bool Lia DecimalString.
Import ListNotations.
Local Open Scope list_scope.
Local Open Scope string_scope.

Set Implicit Arguments.
Set Warnings "-register-all".

(* ===================================================================== *)
(** ** JavaScript values *)
(* ===================================================================== *)

Module JS.

(** The values that reach [JSON.stringify] in this program.  A number is
    an integer-valued double, written as the integer it denotes (exact for
    the safe integers, which print in plain decimal); an object is the list
    of its own enumerable properties in enumeration order.  A class
    instance with a [toJSON] method (a [GraphQLError]) is represented by
    the value [toJSON] returns. *)
Inductive value : Type :=
| Undefined
| Null
| Bool (b : bool)
| Number (n : Z)
| Str (s : string)
| Array (elements : list value)
| Object (properties : list (string * value)).

(** ToBoolean: what [if (v)], [a || b] and [a && b] test. *)
Definition truthy (v : value) : bool :=
  match v with
  | Undefined | Null => false
  | Bool b => b
  | Number n => negb (Z.eqb n 0)
  | Str s => negb (String.eqb s "")
  | Array _ | Object _ => true
  end.

(** [a || b]: the first operand when it is truthy, else the second. *)
Definition or (a b : value) : value := if truthy a then a else b.

(** Property read [o.k]: [undefined] when the property is absent or the
    receiver is not an object. *)
Fixpoint lookup (k : string) (props : list (string * value)) : value :=
  match props with
  | [] => Undefined
  | (k', v) :: rest => if String.eqb k k' then v else lookup k rest
  end.

Definition get (k : string) (o : value) : value :=
  match o with
  | Object props => lookup k props
  | _ => Undefined
  end.

(** *** JSON.stringify *)

Definition LF : string := String (ascii_of_nat 10) EmptyString.

Definition hex_digit (n : nat) : ascii :=
  ascii_of_nat (if Nat.ltb n 10 then 48 + n else 87 + n).

(** The escape of one code unit inside a JSON string literal
    (QuoteJSONString): the two-character escapes, [\u00xx] for the other
    control characters, the character itself otherwise. *)
Definition escape_char (c : ascii) : string :=
  let n := nat_of_ascii c in
  if Nat.eqb n 8 then "\b"
  else if Nat.eqb n 9 then "\t"
  else if Nat.eqb n 10 then "\n"
  else if Nat.eqb n 12 then "\f"
  else if Nat.eqb n 13 then "\r"
  else if Nat.eqb n 34 then "\" ++ String (ascii_of_nat 34) EmptyString
  else if Nat.eqb n 92 then "\\"
  else if Nat.ltb n 32 then
    "\u00" ++ String (hex_digit (n / 16)) (String (hex_digit (n mod 16)) EmptyString)
  else String c EmptyString.

Fixpoint escape (s : string) : string :=
  match s with
  | EmptyString => EmptyString
  | String c rest => escape_char c ++ escape rest
  end.

Definition dquote : string := String (ascii_of_nat 34) EmptyString.

Definition quote (s : string) : string := dquote ++ escape s ++ dquote.

(** Number::toString of an integer-valued number. *)
Definition number_to_string (n : Z) : string :=
  NilZero.string_of_int (Z.to_int n).

Fixpoint join (sep : string) (parts : list string) : string :=
  match parts with
  | [] => EmptyString
  | [p] => p
  | p :: rest => p ++ sep ++ join sep rest
  end.

(** The gap of a numeric [space] argument: that many spaces, ten at most. *)
Fixpoint spaces (n : nat) : string :=
  match n with
  | O => EmptyString
  | S m => " " ++ spaces m
  end.

Definition gap_of (space : nat) : string := spaces (Nat.min 10 space).

(** A non-empty list of serialized members between brackets, each on a
    line of its own at the inner indentation (SerializeJSONObject and
    SerializeJSONArray with a non-empty gap). *)
Definition bracketed (open close stepback indent : string) (partial : list string) : string :=
  match partial with
  | [] => open ++ close
  | _ => open ++ LF ++ indent ++ join ("," ++ LF ++ indent) partial
              ++ LF ++ stepback ++ close
  end.

Section Serialize.
Variable gap : string.

(** SerializeJSONProperty for a non-empty [gap] and no replacer:
    [None] is the result [undefined]; [indent] is the indentation of the
    line the value starts on. *)
Fixpoint SerializeJSONProperty (indent : string) (v : value) : option string :=
  match v with
  | Undefined => None
  | Null => Some "null"
  | Bool true => Some "true"
  | Bool false => Some "false"
  | Number n => Some (number_to_string n)
  | Str s => Some (quote s)
  | Array elements =>
      let inner := indent ++ gap in
      let partial :=
        map (fun e => match SerializeJSONProperty inner e with
                      | Some s => s
                      | None => "null"
                      end) elements in
      Some (bracketed "[" "]" indent inner partial)
  | Object properties =>
      let inner := indent ++ gap in
      let partial :=
        flat_map (fun kv : string * value => let (k, x) := kv in
                            match SerializeJSONProperty inner x with
                            | Some s => [quote k ++ ": " ++ s]
                            | None => []
                            end) properties in
      Some (bracketed "{" "}" indent inner partial)
  end.

(** SerializeJSONObject on its own: serializing an object always gives a
    string. *)
Definition SerializeJSONObject (indent : string) (properties : list (string * value)) : string :=
  let inner := indent ++ gap in
  bracketed "{" "}" indent inner
    (flat_map (fun kv : string * value => let (k, x) := kv in
                         match SerializeJSONProperty inner x with
                         | Some s => [quote k ++ ": " ++ s]
                         | None => []
                         end) properties).
End Serialize.

(** [JSON.stringify(v, null, space)] for a positive numeric [space]. *)
Definition JSON_stringify (v : value) (space : nat) : option string :=
  SerializeJSONProperty (gap_of space) EmptyString v.

(** [JSON.stringify({...}, null, space)] of an object: a string. *)
Definition JSON_stringify_object (properties : list (string * value)) (space : nat) : string :=
  SerializeJSONObject (gap_of space) EmptyString properties.

(** *** Error objects *)

(** An [Error] instance, by the two properties [toString] reads. *)
Record Error : Type := mkError { name : string; message : string }.

(** [Error.prototype.toString]. *)
Definition Error_toString (e : Error) : string :=
  if String.eqb (name e) "" then message e
  else if String.eqb (message e) "" then name e
  else name e ++ ": " ++ message e.

(** [new Error(msg)]. *)
Definition new_Error (msg : string) : Error := mkError "Error" msg.

End JS.

(* ===================================================================== *)
(** ** The GraphQL syntax tree, as far as the executor reads it *)
(* ===================================================================== *)

Module GraphQL.

(** [OperationTypeNode]: a string enumeration in graphql-js. *)
Inductive OperationTypeNode : Type := query | mutation | subscription.

Definition operation_string (o : OperationTypeNode) : string :=
  match o with
  | query => "query"
  | mutation => "mutation"
  | subscription => "subscription"
  end.

Record NameNode : Type := mkName { value : string }.

(** Selections: the nodes below a definition.  None of them is an
    operation definition. *)
Inductive SelectionNode : Type :=
| Field (field_name : string) (selections : list SelectionNode)
| FragmentSpread (fragment_name : string)
| InlineFragment (selections : list SelectionNode).

Record OperationDefinitionNode : Type := mkOperation {
  operation : OperationTypeNode;
  name : option NameNode;
  selectionSet : list SelectionNode
}.

(** The members of [DocumentNode.definitions]. *)
Inductive DefinitionNode : Type :=
| OperationDefinition (node : OperationDefinitionNode)
| FragmentDefinition (fragment_name : string) (selections : list SelectionNode)
| TypeSystemDefinition (kind : string).

Record DocumentNode : Type := mkDocument { definitions : list DefinitionNode }.

(** [visit(ast, { OperationDefinition(node) { ... } })]: a depth-first
    traversal that calls the handler on entering every node of kind
    OperationDefinition, in document order.  The handler returns nothing,
    so the traversal goes on below the node; the nodes there are of other
    kinds, for which the visitor has no handler.  The handler's effect on
    the variables it closes over is [enter]. *)
Definition visit {S : Type} (ast : DocumentNode)
    (enter : OperationDefinitionNode -> S -> S) (s : S) : S :=
  fold_left (fun st d =>
               match d with
               | OperationDefinition node => enter node st
               | _ => st
               end) (definitions ast) s.

(** The top-level operation definitions of a document, in document order. *)
Definition operations (ast : DocumentNode) : list OperationDefinitionNode :=
  flat_map (fun d => match d with
                     | OperationDefinition node => [node]
                     | _ => []
                     end) (definitions ast).

End GraphQL.

(* ===================================================================== *)
(** ** network-helper.ts *)
(* ===================================================================== *)

Import GraphQL.

(** [Endpoint] of graphql-config: the fields read here. *)
Record Endpoint : Type := mkEndpoint {
  url : string;
  headers : list (string * string)
}.

(** [FragmentInfo] of source-helper: the field read here is [content]. *)
Record FragmentInfo : Type := mkFragmentInfo {
  fragment : string;
  content : string
}.

(** [ExtractedTemplateLiteral] of source-helper. *)
Record ExtractedTemplateLiteral : Type := mkLiteral {
  literal_content : string;
  ast : DocumentNode
}.

(** [UserVariables]: passed through to the client as they are. *)
Definition UserVariables : Type := list (string * JS.value).

(** [CombinedError] of urql. [graphQLErrors] is [None] when the property is
    undefined; [networkError] is [None] when it is undefined or null. *)
Record CombinedError : Type := mkCombinedError {
  graphQLErrors : option (list JS.value);
  networkError : option JS.Error
}.

(** A result event, as [buildSubscribeConsumer] destructures it. An absent
    property reads as [JS.Undefined]; [error] is [None] when it is absent. *)
Record OperationResult : Type := mkResult {
  errors : JS.value;
  data : JS.value;
  error : option CombinedError
}.

(** function formatData({ data, errors }) *)
Definition formatData (result : OperationResult) : string :=
  JS.JSON_stringify_object [("data", data result); ("errors", errors result)] 2.

Section Consumer.
(** The update callback [cb(data, operation)], by its effect on the
    state of its owner. *)
Variable S : Type.
Variable cb : string -> string -> S -> S.

Definition buildSubscribeConsumer (operation : string) (result : OperationResult)
    (s : S) : S :=
  let s1 :=
    if JS.truthy (JS.or (errors result) (data result))
    then cb (formatData result) operation s
    else s in
  match error result with
  | Some err =>
      let s2 :=
        match graphQLErrors err with
        | Some errs =>
            if Nat.ltb 0 (List.length errs)
            then cb (JS.JSON_stringify_object [("errors", JS.Array errs)] 2) operation s1
            else s1
        | None => s1
        end in
      match networkError err with
      | Some e => cb (JS.Error_toString e) operation s2
      | None => s2
      end
  | None => s1
  end.
End Consumer.

(** The callback that records its calls, in order. *)
Definition record_call (payload operation : string) (calls : list (string * string))
  : list (string * string) :=
  (calls ++ [(payload, operation)])%list.

(** The calls of the update callback that one result event causes. *)
Definition callback_calls (operation : string) (result : OperationResult)
  : list (string * string) :=
  buildSubscribeConsumer record_call operation result [].

(** *** Fragment inlining (executeOperation, lines 130-132) *)

Definition inlineFragments (fragmentInfos : list FragmentInfo)
    (literal : ExtractedTemplateLiteral) : ExtractedTemplateLiteral :=
  fold_left (fun lit fragmentInfo =>
               mkLiteral (content fragmentInfo ++ JS.LF ++ literal_content lit) (ast lit))
            fragmentInfos literal.

(** *** Classification (executeOperation, lines 112-120) *)

(** [node.name?.value || ""] *)
Definition operationName (node : OperationDefinitionNode) : string :=
  match name node with
  | Some n => if String.eqb (value n) "" then "" else value n
  | None => ""
  end.

(** The two arrays after the visit: [operationTypes] and [operationNames]. *)
Definition classify (ast : DocumentNode) : list OperationTypeNode * list string :=
  visit ast
    (fun node st =>
       ((fst st ++ [operation node])%list, (snd st ++ [operationName node])%list))
    ([], []).

(** *** Clients, as the options they are created with *)

(** [new Agent({ rejectUnauthorized })] of the https module. *)
Record Agent : Type := mkAgent { rejectUnauthorized : JS.value }.

(** The options of graphql-ws's [createClient]; [webSocketImpl] is always
    the ws module.  The timeout is in milliseconds. *)
Record WSClient : Type := mkWSClient {
  ws_url : string;
  connectionAckWaitTimeout : Z
}.

Inductive Exchange : Type :=
| dedupExchange
| cacheExchange
| fetchExchange
| subscriptionExchange (wsClient : WSClient).

(** [defaultExchanges] of urql. *)
Definition defaultExchanges : list Exchange :=
  [dedupExchange; cacheExchange; fetchExchange].

Record FetchOptions : Type := mkFetchOptions {
  fetch_headers : list (string * string);
  agent : option Agent
}.

(** The options of urql's [createClient]; [fetch] is always node-fetch. *)
Record Client : Type := mkClient {
  client_url : string;
  fetchOptions : FetchOptions;
  exchanges : list Exchange
}.

(** A result stream with its consumer subscribed:
    [pipe(urqlClient.<method>(parsedOperation, variables), subscribe(subscriber))],
    the subscriber being [buildSubscribeConsumer(updateCallback, tag)]. *)
Record Subscription : Type := mkSubscription {
  method : OperationTypeNode;
  client : Client;
  document : DocumentNode;
  variables : UserVariables;
  tag : string
}.

(** [endpoint.url.replace(/^http/, "ws")] *)
Fixpoint strip_prefix (p s : string) : option string :=
  match p, s with
  | EmptyString, _ => Some s
  | String a p', String b s' => if Ascii.eqb a b then strip_prefix p' s' else None
  | String _ _, EmptyString => None
  end.

Definition replace_leading_http (u : string) : string :=
  match strip_prefix "http" u with
  | Some rest => "ws" ++ rest
  | None => u
  end.

(** *** Effects *)

(** What the executor reads and changes outside itself: the VS Code
    configuration, the output channel, the console, and the clients and
    streams it has created so far. *)
Record World : Type := mkWorld {
  configuration : string -> JS.value;
  outputChannel : list string;
  console : list string;
  wsClients : list WSClient;
  clients : list Client;
  subscriptions : list Subscription
}.

(** The result of running a statement: it returns or it throws. *)
Inductive Outcome (A : Type) : Type :=
| Returned (a : A)
| Thrown (e : string).
Arguments Thrown {A} e.

Definition M (A : Type) : Type := World -> Outcome A * World.

Definition ret {A} (a : A) : M A := fun w => (Returned a, w).

Definition throw {A} (e : string) : M A := fun w => (Thrown e, w).

Definition bind {A B} (m : M A) (k : A -> M B) : M B :=
  fun w => match m w with
           | (Returned a, w') => k a w'
           | (Thrown e, w') => (Thrown e, w')
           end.

(** [try { body } catch { handler }] *)
Definition try_catch {A} (body handler : M A) : M A :=
  fun w => match body w with
           | (Returned a, w') => (Returned a, w')
           | (Thrown _, w') => handler w'
           end.

Notation "x <- m ;; k" := (bind m (fun x => k))
  (at level 61, m at next level, right associativity).
Notation "m ;;; k" := (bind m (fun _ => k))
  (at level 61, right associativity).

(** A promise that has settled. *)
Inductive Promise (A : Type) : Type :=
| Fulfilled (a : A)
| Rejected (e : string).
Arguments Rejected {A} e.

(** Calling an [async] function whose body has no [await]: the body runs
    to its end at the call, and the promise returned is settled by it. *)
Definition async {A} (body : M A) : World -> Promise A * World :=
  fun w => match body w with
           | (Returned a, w') => (Fulfilled a, w')
           | (Thrown e, w') => (Rejected e, w')
           end.

(** [array.map(async x => ...)]: the calls are made in index order. *)
Fixpoint map_async {A B} (f : A -> M B) (xs : list A) (w : World)
  : list (Promise B) * World :=
  match xs with
  | [] => ([], w)
  | x :: rest =>
      let (p, w1) := async (f x) w in
      let (ps, w2) := map_async f rest w1 in
      (p :: ps, w2)
  end.

(** [Promise.all] of settled promises: the array of their values, or the
    first rejection. *)
Fixpoint Promise_all {A} (ps : list (Promise A)) : Promise (list A) :=
  match ps with
  | [] => Fulfilled []
  | Fulfilled a :: rest =>
      match Promise_all rest with
      | Fulfilled vs => Fulfilled (a :: vs)
      | Rejected e => Rejected e
      end
  | Rejected e :: _ => Rejected e
  end.

(** What the libraries do that the executor cannot decide: the protocol
    the URL parser finds ([None]: [new URL] throws a TypeError), and which
    calls throw. *)
Record Externals : Type := mkExternals {
  URL_protocol : string -> option string;
  createWSClient_throws : WSClient -> bool;
  createClient_throws : Client -> bool;
  request_throws : OperationTypeNode -> Client -> bool
}.

Section NetworkHelper.
Variable ext : Externals.

(** [workspace.getConfiguration(section)] *)
Definition getConfiguration (section : string) : M JS.value :=
  fun w => (Returned (configuration w section), w).

(** [this.outputChannel.appendLine(line)] *)
Definition appendLine (line : string) : M unit :=
  fun w => (Returned tt,
            mkWorld (configuration w) (outputChannel w ++ [line])%list (console w)
                    (wsClients w) (clients w) (subscriptions w)).

(** [console.error(line)] *)
Definition console_error (line : string) : M unit :=
  fun w => (Returned tt,
            mkWorld (configuration w) (outputChannel w) (console w ++ [line])%list
                    (wsClients w) (clients w) (subscriptions w)).

(** [createWSClient(options)] of graphql-ws *)
Definition createWSClient (options : WSClient) : M WSClient :=
  fun w => if createWSClient_throws ext options
           then (Thrown "createWSClient", w)
           else (Returned options,
                 mkWorld (configuration w) (outputChannel w) (console w)
                         (wsClients w ++ [options])%list (clients w) (subscriptions w)).

(** [new URL(u).protocol] *)
Definition new_URL_protocol (u : string) : M string :=
  match URL_protocol ext u with
  | Some protocol => ret protocol
  | None => throw "TypeError: Invalid URL"
  end.

(** [createClient(options)] of urql *)
Definition createClient (options : Client) : M Client :=
  fun w => if createClient_throws ext options
           then (Thrown "createClient", w)
           else (Returned options,
                 mkWorld (configuration w) (outputChannel w) (console w)
                         (wsClients w) (clients w ++ [options])%list (subscriptions w)).

(** [pipe(urqlClient.<method>(parsedOperation, variables), subscribe(subscriber))] *)
Definition pipe_subscribe (m : OperationTypeNode) (urqlClient : Client)
    (parsedOperation : DocumentNode) (vars : UserVariables) (subscriber : string)
  : M unit :=
  fun w => if request_throws ext m urqlClient
           then (Thrown "request", w)
           else (Returned tt,
                 mkWorld (configuration w) (outputChannel w) (console w)
                         (wsClients w) (clients w)
                         (subscriptions w ++
                            [mkSubscription m urqlClient parsedOperation vars subscriber])%list).

(** private buildClient({ operation, endpoint, updateCallback }); the
    callback is not used by the body. *)
Definition buildClient (operation : string) (endpoint : Endpoint) : M Client :=
  config <- getConfiguration "vscode-graphql" ;;
  let agent := mkAgent (JS.get "rejectUnauthorized" config) in
  exchanges <-
    (if String.eqb operation "subscription" then
       let wsEndpointURL := replace_leading_http (url endpoint) in
       wsClient <- createWSClient (mkWSClient wsEndpointURL 3000) ;;
       ret (defaultExchanges ++ [subscriptionExchange wsClient])%list
     else ret defaultExchanges) ;;
  protocol <- new_URL_protocol (url endpoint) ;;
  createClient
    (mkClient (url endpoint)
       (mkFetchOptions (headers endpoint)
          (if String.eqb protocol "https:" then Some agent else None))
       exchanges).

(** The body of the [try] block of executeOperation (lines 148-170). *)
Definition dispatch (endpoint : Endpoint) (parsedOperation : DocumentNode)
    (vars : UserVariables) (operation : OperationTypeNode) (subscriber : string)
  : M unit :=
  urqlClient <- buildClient (operation_string operation) endpoint ;;
  if String.eqb (operation_string operation) "subscription" then
    pipe_subscribe subscription urqlClient parsedOperation vars subscriber
  else if String.eqb (operation_string operation) "query" then
    pipe_subscribe query urqlClient parsedOperation vars subscriber
  else
    pipe_subscribe mutation urqlClient parsedOperation vars subscriber.

(** The function mapped over [operationTypes] (lines 138-174).  The
    subscriber [buildSubscribeConsumer(updateCallback, operation)] is
    determined by the operation it is tagged with. *)
Definition executeOne (endpoint : Endpoint) (parsedOperation : DocumentNode)
    (vars : UserVariables) (operation : OperationTypeNode) : M unit :=
  let subscriber := operation_string operation in
  appendLine ("NetworkHelper: operation: " ++ operation_string operation) ;;;
  appendLine ("NetworkHelper: endpoint: " ++ url endpoint) ;;;
  try_catch
    (dispatch endpoint parsedOperation vars operation subscriber)
    (console_error "error executing operation").

(** [Promise.all(operationTypes.map(async operation => { ... }))] *)
Definition executeAll (endpoint : Endpoint) (parsedOperation : DocumentNode)
    (vars : UserVariables) (operationTypes : list OperationTypeNode) (w : World)
  : Promise (list unit) * World :=
  let (ps, w') := map_async (executeOne endpoint parsedOperation vars) operationTypes w in
  (Promise_all ps, w').

(** The two functions of source-helper that are awaited and the [gql]
    parser: each gives its result or fails.  The fragment definitions are
    the map from fragment name to [FragmentInfo] that
    [getFragmentDefinitions] resolves to. *)
Variable GraphQLProjectConfig : Type.
Variable getFragmentDefinitions :
  GraphQLProjectConfig -> Outcome (list (string * FragmentInfo)).
Variable getFragmentDependenciesForAST :
  DocumentNode -> list (string * FragmentInfo) -> Outcome (list FragmentInfo).
Variable gql : string -> Outcome DocumentNode.

(** async executeOperation({ endpoint, literal, variables, updateCallback,
    projectConfig }): the promise it returns, the literal as it leaves
    it, and the world. *)
Definition executeOperation (endpoint : Endpoint) (literal : ExtractedTemplateLiteral)
    (vars : UserVariables) (projectConfig : GraphQLProjectConfig) (w : World)
  : Promise (list unit) * ExtractedTemplateLiteral * World :=
  let operationTypes := fst (classify (ast literal)) in
  match getFragmentDefinitions projectConfig with
  | Thrown e => (Rejected e, literal, w)
  | Returned fragmentDefinitions =>
      match getFragmentDependenciesForAST (ast literal) fragmentDefinitions with
      | Thrown e => (Rejected e, literal, w)
      | Returned fragmentInfos =>
          let literal' := inlineFragments fragmentInfos literal in
          match gql (JS.LF ++ "      " ++ literal_content literal' ++ JS.LF ++ "    ") with
          | Thrown e => (Rejected e, literal', w)
          | Returned parsedOperation =>
              let (p, w') :=
                executeAll endpoint parsedOperation vars operationTypes w in
              (p, literal', w')
          end
      end
  end.
End NetworkHelper.

(** *** An instance of the externals *)

Definition is_alpha (c : ascii) : bool :=
  let n := nat_of_ascii c in
  (Nat.leb 65 n && Nat.leb n 90) || (Nat.leb 97 n && Nat.leb n 122).

Definition is_scheme_char (c : ascii) : bool :=
  let n := nat_of_ascii c in
  is_alpha c || (Nat.leb 48 n && Nat.leb n 57)
  || Nat.eqb n 43 || Nat.eqb n 45 || Nat.eqb n 46.

Definition to_lower (c : ascii) : ascii :=
  let n := nat_of_ascii c in
  if Nat.leb 65 n && Nat.leb n 90 then ascii_of_nat (n + 32) else c.

(** The scheme state of the URL parser: the scheme characters up to the
    first colon, in lower case, with the colon. *)
Fixpoint scan_scheme (s : string) : option string :=
  match s with
  | EmptyString => None
  | String c rest =>
      if Ascii.eqb c ":" then Some ":"
      else if is_scheme_char c then
        match scan_scheme rest with
        | Some p => Some (String (to_lower c) p)
        | None => None
        end
      else None
  end.

(** A URL parser that accepts every string that starts with a scheme (a
    letter, then scheme characters, then a colon) and fails on the others,
    as [new URL] without a base does on a string without a scheme. *)
Definition scheme_protocol (u : string) : option string :=
  match u with
  | EmptyString => None
  | String c _ => if is_alpha c then scan_scheme u else None
  end.

(** Libraries none of whose calls throws on a URL with a scheme. *)
Definition quiet : Externals :=
  mkExternals scheme_protocol (fun _ => false) (fun _ => false) (fun _ _ => false).

(** A world in which nothing has been logged or created, with the given
    value of the [rejectUnauthorized] setting. *)
Definition fresh_world (rejectUnauthorized : JS.value) : World :=
  mkWorld (fun section =>
             if String.eqb section "vscode-graphql"
             then JS.Object [("rejectUnauthorized", rejectUnauthorized)]
             else JS.Undefined)
          [] [] [] [] [].

(** *** Worlds as logs *)

(** The world with the configuration of [w] and nothing logged. *)
Definition blank (w : World) : World :=
  mkWorld (configuration w) [] [] [] [] [].

(** [w] with the logs of [d] appended. *)
Definition extend (w d : World) : World :=
  mkWorld (configuration w)
          (outputChannel w ++ outputChannel d)%list
          (console w ++ console d)%list
          (wsClients w ++ wsClients d)%list
          (clients w ++ clients d)%list
          (subscriptions w ++ subscriptions d)%list.

(** A statement only reads the configuration and only appends to the
    logs: what it does in a world is what it does in the blank world,
    appended. *)
Definition framed {A} (m : M A) : Prop :=
  forall w, m w = (fst (m (blank w)), extend w (snd (m (blank w)))).

(** The sub-clients for WebSocket transport among a client's exchanges. *)
Definition ws_subclients (c : Client) : list WSClient :=
  flat_map (fun e => match e with
                     | subscriptionExchange wsClient => [wsClient]
                     | _ => []
                     end) (exchanges c).

(** *** Notions used in the statements *)

(** The text that inlining puts in front of the content: every fragment
    on a line of its own, the last fragment of the list first. *)
Definition prepended (fragmentInfos : list FragmentInfo) : string :=
  fold_left (fun acc fragmentInfo => content fragmentInfo ++ JS.LF ++ acc)
            fragmentInfos "".

(** The event with the same top-level [error] and neither [data] nor
    [errors]: what is left for the error branch. *)
Definition error_only (result : OperationResult) : OperationResult :=
  mkResult JS.Undefined JS.Undefined (error result).

(** An event carries a field when the field is there with a value, be it
    [null]. *)
Definition carries (field : JS.value) : Prop := field <> JS.Undefined.

(** The logs of executing one operation alone, in the blank world. *)
Definition alone (ext : Externals) (endpoint : Endpoint) (doc : DocumentNode)
    (vars : UserVariables) (w : World) (operation : OperationTypeNode) : World :=
  snd (executeOne ext endpoint doc vars operation (blank w)).

(** Libraries whose WebSocket client constructor throws. *)
Definition no_websocket : Externals :=
  mkExternals scheme_protocol (fun _ => true) (fun _ => false) (fun _ _ => false).

(** A value other than [undefined]. *)
Definition is_defined (v : JS.value) : bool :=
  match v with
  | JS.Undefined => false
  | _ => true
  end.

Definition is_operation_definition (d : DefinitionNode) : bool :=
  match d with
  | OperationDefinition _ => true
  | _ => false
  end.

(** The two lines that executing one operation appends to the output
    channel. *)
Definition output_lines (endpoint : Endpoint) (operation : OperationTypeNode)
  : list string :=
  ["NetworkHelper: operation: " ++ operation_string operation;
   "NetworkHelper: endpoint: " ++ url endpoint].

(** The WebSocket client that buildClient asks for. *)
Definition ws_client_of (endpoint : Endpoint) : WSClient :=
  mkWSClient (replace_leading_http (url endpoint)) 3000.

(** Resolvers and a parser that always succeed, for runs on concrete
    inputs. *)
Definition sample_definitions (_ : unit) : Outcome (list (string * FragmentInfo)) :=
  Returned [("F", mkFragmentInfo "F" "fragment F on T { id }")].

Definition sample_dependencies (_ : DocumentNode)
    (defs : list (string * FragmentInfo)) : Outcome (list FragmentInfo) :=
  Returned (map snd defs).

Definition sample_gql (_ : string) : Outcome DocumentNode :=
  Returned (mkDocument []).

Definition failing_gql (_ : string) : Outcome DocumentNode :=
  Thrown "GraphQLError: Syntax Error".

(** Whether the [try] block of an operation returns, in the blank world. *)
Definition dispatched (ext : Externals) (endpoint : Endpoint) (doc : DocumentNode)
    (vars : UserVariables) (w : World) (operation : OperationTypeNode) : bool :=
  match fst (dispatch ext endpoint doc vars operation
               (operation_string operation) (blank w)) with
  | Returned _ => true
  | Thrown _ => false
  end.

(** A literal with one named query, and one with a fragment definition
    only. *)
Definition sample_literal : ExtractedTemplateLiteral :=
  mkLiteral "query Q { t { ...F } }"
    (mkDocument [OperationDefinition
                   (mkOperation query (Some (mkName "Q"))
                      [Field "t" [FragmentSpread "F"]])]).

Definition fragments_only_literal : ExtractedTemplateLiteral :=
  mkLiteral "fragment G on T { ...F }"
    (mkDocument [FragmentDefinition "G" [FragmentSpread "F"]]).

(* ===================================================================== *)
(** ** Properties *)
(* ===================================================================== *)

(** *** JSON.stringify *)

Lemma JSON_stringify_Object (properties : list (string * JS.value)) (space : nat) :
  JS.JSON_stringify (JS.Object properties) space
  = Some (JS.JSON_stringify_object properties space).
Proof. reflexivity. Qed.

Lemma Error_toString_new_Error (msg : string) :
  msg <> "" -> JS.Error_toString (JS.new_Error msg) = "Error: " ++ msg.
Proof.
  intros Hmsg. unfold JS.Error_toString, JS.new_Error. simpl.
  destruct (String.eqb_spec msg ""); [contradiction | reflexivity].
Qed.

(** *** The operation classifier *)

Lemma visit_push (defs : list DefinitionNode) :
  forall types names,
    visit (mkDocument defs)
      (fun node st =>
         ((fst st ++ [operation node])%list, (snd st ++ [operationName node])%list))
      (types, names)
    = ((types ++ map operation (operations (mkDocument defs)))%list,
       (names ++ map operationName (operations (mkDocument defs)))%list).
Proof.
  unfold visit, operations. cbn [definitions].
  induction defs as [| d defs IH]; intros types names.
  - cbn. now rewrite !app_nil_r.
  - cbn [fold_left flat_map].
    destruct d as [node | f sels | k]; cbn [fst snd]; rewrite IH;
      try reflexivity.
    cbn [app map]. now rewrite <- !app_assoc.
Qed.

Lemma classify_spec (doc : DocumentNode) :
  classify doc
  = (map operation (operations doc), map operationName (operations doc)).
Proof.
  destruct doc as [defs]. unfold classify.
  now rewrite visit_push.
Qed.

(** [node.name?.value || ""] is the value of the name when the operation
    has one, and the empty string when it has none. *)
Lemma operationName_value (node : OperationDefinitionNode) :
  operationName node
  = match name node with
    | Some nm => value nm
    | None => ""
    end.
Proof.
  unfold operationName. destruct (name node) as [nm |]; [| reflexivity].
  destruct (String.eqb_spec (value nm) "") as [Heq | _]; [now rewrite Heq | reflexivity].
Qed.

(** C2. For a document with N top-level operation definitions the
    classification step leaves N operation kinds and N operation names,
    and the (kind, name) pairs they form are those of the operation
    definitions, in document order: the kind of each operation with the
    value of its name, or with the empty string when it has no name. *)
Theorem classify_document_order (doc : DocumentNode) :
  let operationTypes := fst (classify doc) in
  let operationNames := snd (classify doc) in
  combine operationTypes operationNames
  = map (fun node =>
           (operation node,
            match name node with
            | Some nm => value nm
            | None => ""
            end)) (operations doc)
  /\ List.length operationTypes = List.length (operations doc)
  /\ List.length operationNames = List.length (operations doc).
Proof.
  rewrite classify_spec; simpl.
  repeat split; try apply length_map.
  induction (operations doc) as [| node ops IH]; simpl; [reflexivity |].
  now rewrite IH, operationName_value.
Qed.

(** *** The fragment inliner *)

Lemma append_assoc (a b c : string) : (a ++ b) ++ c = a ++ (b ++ c).
Proof. induction a as [| x a IH]; simpl; [reflexivity | now rewrite IH]. Qed.

Lemma append_nil_r (a : string) : a ++ "" = a.
Proof. induction a as [| x a IH]; simpl; [reflexivity | now rewrite IH]. Qed.

Lemma length_append (a b : string) :
  String.length (a ++ b) = String.length a + String.length b.
Proof. induction a as [| x a IH]; simpl; [reflexivity | now rewrite IH]. Qed.

Lemma fold_prepend (fragmentInfos : list FragmentInfo) :
  forall acc tail,
    fold_left (fun a fragmentInfo => content fragmentInfo ++ JS.LF ++ a)
              fragmentInfos (acc ++ tail)
    = fold_left (fun a fragmentInfo => content fragmentInfo ++ JS.LF ++ a)
                fragmentInfos acc ++ tail.
Proof.
  induction fragmentInfos as [| f fs IH]; intros acc tail; simpl; [reflexivity |].
  rewrite <- IH. f_equal. now rewrite !append_assoc.
Qed.

Lemma inlineFragments_ast fragmentInfos literal :
  ast (inlineFragments fragmentInfos literal) = ast literal.
Proof.
  unfold inlineFragments. revert literal.
  induction fragmentInfos as [| f fs IH]; intros literal; simpl; [reflexivity |].
  now rewrite IH.
Qed.

Lemma inlineFragments_content fragmentInfos literal :
  literal_content (inlineFragments fragmentInfos literal)
  = prepended fragmentInfos ++ literal_content literal.
Proof.
  unfold inlineFragments, prepended.
  rewrite <- fold_prepend. simpl.
  revert literal.
  induction fragmentInfos as [| f fs IH]; intros literal; simpl; [reflexivity |].
  now rewrite IH.
Qed.

Lemma prepended_length (fragmentInfos : list FragmentInfo) :
  List.length fragmentInfos <= String.length (prepended fragmentInfos).
Proof.
  unfold prepended.
  enough (H : forall acc,
             List.length fragmentInfos + String.length acc
             <= String.length
                  (fold_left (fun a fragmentInfo => content fragmentInfo ++ JS.LF ++ a)
                             fragmentInfos acc)).
  { specialize (H ""). cbn [String.length] in H. now rewrite Nat.add_0_r in H. }
  induction fragmentInfos as [| f fs IH]; intros acc; cbn [fold_left List.length];
    [lia |].
  specialize (IH (content f ++ JS.LF ++ acc)).
  rewrite !length_append in IH. cbn [String.length JS.LF] in IH. lia.
Qed.

(** C3. Inlining puts the text of every fragment in front of the content
    and does not look at what the content already holds: run again on its
    own result with a non-empty fragment list, it puts the same text in
    front once more, so the content differs from that of the first run. *)
Theorem inlineFragments_not_idempotent
    (fragmentInfos : list FragmentInfo) (literal : ExtractedTemplateLiteral) :
  fragmentInfos <> [] ->
  let once := inlineFragments fragmentInfos literal in
  let twice := inlineFragments fragmentInfos once in
  literal_content once = prepended fragmentInfos ++ literal_content literal
  /\ literal_content twice
     = prepended fragmentInfos ++ prepended fragmentInfos ++ literal_content literal
  /\ literal_content twice <> literal_content once.
Proof.
  intros Hne once twice. subst once twice.
  rewrite !inlineFragments_content.
  repeat split.
  intros Heq. apply (f_equal String.length) in Heq.
  rewrite !length_append in Heq.
  pose proof (prepended_length fragmentInfos) as Hlen.
  destruct fragmentInfos as [| f fs]; [contradiction | simpl in Hlen; lia].
Qed.

Lemma prepended_snoc (fragmentInfos : list FragmentInfo) (f : FragmentInfo) :
  prepended (fragmentInfos ++ [f]) = content f ++ JS.LF ++ prepended fragmentInfos.
Proof. unfold prepended. now rewrite fold_left_app. Qed.

(** The prepended text, spelled out: the fragments' lines, last fragment
    first. *)
Lemma prepended_rev (fragmentInfos : list FragmentInfo) :
  prepended fragmentInfos
  = fold_right String.append ""
      (map (fun fragmentInfo => content fragmentInfo ++ JS.LF) (rev fragmentInfos)).
Proof.
  induction fragmentInfos as [| f fs IH] using rev_ind; [reflexivity |].
  rewrite prepended_snoc, rev_app_distr. cbn [rev app map fold_right].
  now rewrite IH, append_assoc.
Qed.

(** *** The result consumer *)

(** The recorded calls tell what the consumer does with any callback: it
    makes those calls, in that order. *)
Lemma buildSubscribeConsumer_calls (S : Type) (cb : string -> string -> S -> S)
    (operation : string) (result : OperationResult) (s : S) :
  buildSubscribeConsumer cb operation result s
  = fold_left (fun st call => cb (fst call) (snd call) st)
              (callback_calls operation result) s.
Proof.
  unfold callback_calls, buildSubscribeConsumer, record_call.
  destruct (JS.truthy (JS.or (errors result) (data result)));
    destruct (error result) as [[[errs |] [e |]] |]; simpl;
    try destruct (Nat.ltb 0 (List.length errs)); reflexivity.
Qed.

Lemma truthy_or (a b : JS.value) :
  JS.truthy (JS.or a b) = JS.truthy a || JS.truthy b.
Proof. unfold JS.or. destruct (JS.truthy a) eqn:Ha; simpl; [exact Ha | reflexivity]. Qed.

Lemma callback_calls_split (operation : string) (result : OperationResult) :
  callback_calls operation result
  = ((if JS.truthy (JS.or (errors result) (data result))
      then [(formatData result, operation)] else [])
     ++ callback_calls operation (error_only result))%list.
Proof.
  unfold callback_calls, buildSubscribeConsumer, record_call, error_only.
  destruct (JS.truthy (JS.or (errors result) (data result)));
    destruct (error result) as [[[errs |] [e |]] |]; simpl;
    try destruct (Nat.ltb 0 (List.length errs)); reflexivity.
Qed.

(** C4, as stated, fails: an event whose [data] field is [null], with no
    [errors] and no [error], carries a [data] field, and the consumer
    calls the callback for it not once but never, since the test
    [errors || data] is one of truthiness. *)
Lemma consumer_drops_null_data :
  let result := mkResult JS.Undefined JS.Null None in
  (carries (data result) \/ carries (errors result))
  /\ callback_calls "query" result = []
  /\ ~ (forall operation r,
          carries (data r) \/ carries (errors r) ->
          exists rest,
            callback_calls operation r = (formatData r, operation) :: rest).
Proof.
  cbn zeta. split; [left; discriminate |]. split; [reflexivity |].
  intros H.
  destruct (H "query" (mkResult JS.Undefined JS.Null None)) as [rest Hrest].
  - left; discriminate.
  - discriminate Hrest.
Qed.

(** C4, amended. For every result event whose [data] or [errors] field is
    truthy, the data branch of the consumer calls the callback exactly
    once, first, with the 2-space JSON serialization of [{data, errors}]
    and the operation kind; the calls after it are those of the error
    branch, and there are none when the event has no [error]. *)
Theorem consumer_data_branch (operation : string) (result : OperationResult) :
  JS.truthy (data result) = true \/ JS.truthy (errors result) = true ->
  formatData result
  = JS.JSON_stringify_object [("data", data result); ("errors", errors result)] 2
  /\ callback_calls operation result
     = (formatData result, operation) :: callback_calls operation (error_only result)
  /\ (error result = None ->
      callback_calls operation result = [(formatData result, operation)]).
Proof.
  intros Htruthy.
  assert (Hor : JS.truthy (JS.or (errors result) (data result)) = true).
  { rewrite truthy_or. destruct Htruthy as [H | H]; rewrite H;
      [apply orb_true_r | reflexivity]. }
  split; [reflexivity |].
  rewrite callback_calls_split, Hor.
  split; [reflexivity |].
  intros Hnone. unfold callback_calls at 1, buildSubscribeConsumer, error_only.
  cbn. now rewrite Hnone.
Qed.

(** C5. An event with neither [data] nor [errors] whose [error] holds one
    GraphQL error and no network error causes exactly one call, with the
    2-space JSON serialization of [{errors: [err1]}] and the operation
    kind: the object with the one key, its array opened on the next line
    and the error inside it at indentation four. *)
Theorem consumer_graphql_error (operation : string) (err1 : JS.value) :
  callback_calls operation
    (mkResult JS.Undefined JS.Undefined (Some (mkCombinedError (Some [err1]) None)))
  = [(JS.JSON_stringify_object [("errors", JS.Array [err1])] 2, operation)]
  /\ JS.JSON_stringify_object [("errors", JS.Array [err1])] 2
     = "{" ++ JS.LF ++ "  " ++ JS.quote "errors" ++ ": [" ++ JS.LF
       ++ "    " ++ match JS.SerializeJSONProperty "  " "    " err1 with
                    | Some s => s
                    | None => "null"
                    end
       ++ JS.LF ++ "  ]" ++ JS.LF ++ "}".
Proof.
  split; [reflexivity |].
  unfold JS.JSON_stringify_object, JS.SerializeJSONObject, JS.gap_of.
  simpl.
  destruct (JS.SerializeJSONProperty "  " "    " err1) as [s |];
    [now rewrite append_assoc | reflexivity].
Qed.

(** C6. An event with neither [data] nor [errors] whose [error] holds no
    GraphQL error and the network error [e] causes exactly one call, with
    the string [e.toString()] and the operation kind. *)
Theorem consumer_network_error (operation : string) (e : JS.Error) :
  callback_calls operation
    (mkResult JS.Undefined JS.Undefined (Some (mkCombinedError (Some []) (Some e))))
  = [(JS.Error_toString e, operation)].
Proof. reflexivity. Qed.

(** C10. An event whose [data] and [errors] are both falsy and that has
    no top-level [error] causes no call of the callback: the consumer
    leaves the state of the callback's owner as it is. *)
Theorem consumer_drops_empty_event (operation : string) (result : OperationResult) :
  JS.truthy (data result) = false ->
  JS.truthy (errors result) = false ->
  error result = None ->
  callback_calls operation result = []
  /\ forall (S : Type) (cb : string -> string -> S -> S) (s : S),
       buildSubscribeConsumer cb operation result s = s.
Proof.
  intros Hdata Herrors Herror.
  assert (Hcalls : callback_calls operation result = []).
  { rewrite callback_calls_split, truthy_or, Hdata, Herrors.
    unfold callback_calls, buildSubscribeConsumer, error_only. cbn.
    now rewrite Herror. }
  split; [exact Hcalls |].
  intros S cb s. now rewrite buildSubscribeConsumer_calls, Hcalls.
Qed.

(** *** The client builder *)

Lemma replace_leading_http_http (rest : string) :
  replace_leading_http ("http" ++ rest) = "ws" ++ rest.
Proof. reflexivity. Qed.

Lemma replace_leading_http_other (u : string) :
  strip_prefix "http" u = None -> replace_leading_http u = u.
Proof. unfold replace_leading_http. now intros ->. Qed.

(** Splits on what the next library call met in the goal does. *)
Ltac split_external ext :=
  match goal with
  | |- context [createWSClient_throws ext ?o] =>
      destruct (createWSClient_throws ext o) eqn:?
  | |- context [URL_protocol ext ?u] =>
      destruct (URL_protocol ext u) as [? |] eqn:?
  | |- context [createClient_throws ext ?o] =>
      destruct (createClient_throws ext o) eqn:?
  | |- context [request_throws ext ?m ?c] =>
      destruct (request_throws ext m c) eqn:?
  end.

(** Unfolds the run of [buildClient] in hypothesis [H] down to the calls
    of the libraries and splits on what each of them does. *)
Ltac run_buildClient ext operation H :=
  revert H;
  unfold buildClient, bind, ret, throw, getConfiguration, createWSClient,
    new_URL_protocol, createClient;
  destruct (String.eqb_spec operation "subscription");
  repeat (split_external ext; unfold ret, throw);
  intros H.

(** With libraries that do not throw, building a client returns one. *)
Lemma buildClient_returns ext operation endpoint w protocol :
  URL_protocol ext (url endpoint) = Some protocol ->
  (forall o, createWSClient_throws ext o = false) ->
  (forall o, createClient_throws ext o = false) ->
  exists c, fst (buildClient ext operation endpoint w) = Returned c.
Proof.
  intros Hurl Hws Hclient.
  unfold buildClient, bind, ret, throw, getConfiguration, createWSClient,
    new_URL_protocol, createClient.
  destruct (String.eqb operation "subscription");
    rewrite ?Hws, Hurl; unfold ret; rewrite Hclient; eexists; reflexivity.
Qed.

(** C7. The client that buildClient returns for the operation kind
    "subscription" has exactly one WebSocket sub-client, created with a
    connection acknowledgement timeout of 3000 ms and with the endpoint
    URL in which a leading "http" is replaced by "ws" (so "http://..."
    becomes "ws://..." and "https://..." becomes "wss://..."); the client
    returned for any other operation kind has none, and none is created. *)
Theorem buildClient_websocket ext operation endpoint w c w' :
  buildClient ext operation endpoint w = (Returned c, w') ->
  (operation = "subscription" ->
     ws_subclients c = [mkWSClient (replace_leading_http (url endpoint)) 3000]
     /\ wsClients w'
        = (wsClients w ++ [mkWSClient (replace_leading_http (url endpoint)) 3000])%list
     /\ (forall rest, url endpoint = "http" ++ rest ->
                      replace_leading_http (url endpoint) = "ws" ++ rest)
     /\ (forall rest, url endpoint = "https://" ++ rest ->
                      replace_leading_http (url endpoint) = "wss://" ++ rest))
  /\ (operation <> "subscription" ->
        ws_subclients c = [] /\ wsClients w' = wsClients w).
Proof.
  intros Hrun.
  run_buildClient ext operation Hrun; inversion Hrun; subst; clear Hrun;
    (split; [intros Hsub | intros Hother]); try contradiction.
  - repeat split; intros rest ->; reflexivity.
  - split; reflexivity.
Qed.

(** C8. The client that buildClient returns carries the agent made from
    the [rejectUnauthorized] setting exactly when the URL parser reports
    the protocol "https:" for the endpoint URL.  For any other protocol
    the fetch options carry no agent, and the same client is returned
    whatever the configuration holds. *)
Theorem buildClient_agent ext operation endpoint w c w' :
  buildClient ext operation endpoint w = (Returned c, w') ->
  (agent (fetchOptions c)
   = Some (mkAgent (JS.get "rejectUnauthorized" (configuration w "vscode-graphql")))
   <-> URL_protocol ext (url endpoint) = Some "https:")
  /\ (URL_protocol ext (url endpoint) <> Some "https:" ->
      agent (fetchOptions c) = None
      /\ forall w2, fst (buildClient ext operation endpoint w2) = Returned c).
Proof.
  intros Hrun.
  assert (Hagent :
            URL_protocol ext (url endpoint) <> Some "https:" ->
            agent (fetchOptions c) = None
            /\ forall w2, fst (buildClient ext operation endpoint w2) = Returned c).
  { intros Hproto.
    run_buildClient ext operation Hrun; inversion Hrun; subst; clear Hrun;
      cbn [agent fetchOptions] in *;
      match goal with
      | |- context [String.eqb ?p "https:"] =>
          destruct (String.eqb_spec p "https:") as [-> | Hne];
          [now contradiction Hproto |]
      end;
      (split; [reflexivity |]); intros w2;
      repeat match goal with
             | H : ?t = _ |- context [?t] => rewrite H
             end; reflexivity. }
  split; [| exact Hagent].
  split.
  - intros Hsome.
    destruct (URL_protocol ext (url endpoint)) as [protocol |] eqn:Hurl.
    + destruct (String.eqb_spec protocol "https:") as [-> | Hne]; [reflexivity |].
      assert (Hdiff : Some protocol <> Some "https:") by congruence.
      destruct (Hagent Hdiff) as [Hnone _]. congruence.
    + assert (Hdiff : @None string <> Some "https:") by discriminate.
      destruct (Hagent Hdiff) as [Hnone _]. congruence.
  - intros Hurl. revert Hrun.
    unfold buildClient, bind, throw, getConfiguration, createWSClient,
      new_URL_protocol, createClient.
    rewrite Hurl. unfold ret.
    destruct (String.eqb operation "subscription");
      repeat split_external ext;
      intros Hrun; inversion Hrun; reflexivity.
Qed.

(** *** Statements as log writers *)

Lemma blank_extend (w d : World) : blank (extend w d) = blank w.
Proof. reflexivity. Qed.

Lemma blank_blank (w : World) : blank (blank w) = blank w.
Proof. reflexivity. Qed.

Lemma extend_blank (w : World) : extend w (blank w) = w.
Proof. destruct w; unfold extend, blank; simpl. now rewrite !app_nil_r. Qed.

Lemma extend_assoc (w d1 d2 : World) :
  extend (extend w d1) d2 = extend w (extend d1 d2).
Proof. unfold extend; simpl. now rewrite !app_assoc. Qed.

Lemma extend_blank_l (w d : World) :
  configuration d = configuration w -> extend (blank w) d = d.
Proof. destruct d; unfold extend, blank; simpl. now intros ->. Qed.

Lemma framed_blank {A} (m : M A) (w : World) :
  framed m -> blank (snd (m (blank w))) = blank w.
Proof. intros Hm. rewrite (Hm (blank w)). reflexivity. Qed.

Lemma framed_ret {A} (a : A) : framed (ret a).
Proof. intros w. unfold ret; simpl. now rewrite extend_blank. Qed.

Lemma framed_throw {A} (e : string) : framed (@throw A e).
Proof. intros w. unfold throw; simpl. now rewrite extend_blank. Qed.

Lemma framed_bind {A B} (m : M A) (k : A -> M B) :
  framed m -> (forall a, framed (k a)) -> framed (bind m k).
Proof.
  intros Hm Hk w. unfold bind.
  pose proof (framed_blank w Hm) as Hblank.
  rewrite (Hm w).
  destruct (m (blank w)) as [[a | e] d]; simpl in *; [| reflexivity].
  rewrite (Hk a (extend w d)), blank_extend.
  rewrite (Hk a d), Hblank. simpl.
  now rewrite extend_assoc.
Qed.

Lemma framed_try_catch {A} (body handler : M A) :
  framed body -> framed handler -> framed (try_catch body handler).
Proof.
  intros Hb Hh w. unfold try_catch.
  pose proof (framed_blank w Hb) as Hblank.
  rewrite (Hb w).
  destruct (body (blank w)) as [[a | e] d]; simpl in *; [reflexivity |].
  rewrite (Hh (extend w d)), blank_extend.
  rewrite (Hh d), Hblank. simpl.
  now rewrite extend_assoc.
Qed.

Ltac framed_primitive :=
  let w := fresh "w" in
  intros w; destruct w; cbv beta delta [blank extend] iota; simpl;
  repeat match goal with
         | |- context [if ?b then _ else _] => destruct b
         end;
  simpl; rewrite ?app_nil_r; reflexivity.

Lemma framed_getConfiguration section : framed (getConfiguration section).
Proof. unfold getConfiguration. framed_primitive. Qed.

Lemma framed_appendLine line : framed (appendLine line).
Proof. unfold appendLine. framed_primitive. Qed.

Lemma framed_console_error line : framed (console_error line).
Proof. unfold console_error. framed_primitive. Qed.

Lemma framed_createWSClient ext options : framed (createWSClient ext options).
Proof. unfold createWSClient. framed_primitive. Qed.

Lemma framed_createClient ext options : framed (createClient ext options).
Proof. unfold createClient. framed_primitive. Qed.

Lemma framed_new_URL_protocol ext u : framed (new_URL_protocol ext u).
Proof.
  unfold new_URL_protocol.
  destruct (URL_protocol ext u); [apply framed_ret | apply framed_throw].
Qed.

Lemma framed_pipe_subscribe ext m c doc vars subscriber :
  framed (pipe_subscribe ext m c doc vars subscriber).
Proof. unfold pipe_subscribe. framed_primitive. Qed.

Create HintDb framed.
#[local] Hint Resolve framed_ret framed_throw framed_getConfiguration
  framed_appendLine framed_console_error framed_createWSClient
  framed_createClient framed_new_URL_protocol framed_pipe_subscribe : framed.

Ltac framed_steps :=
  repeat first
    [ apply framed_bind; [| intros ?]
    | apply framed_try_catch
    | match goal with
      | |- framed (if ?b then _ else _) => destruct b
      end
    | solve [auto with framed] ].

Lemma framed_buildClient ext operation endpoint :
  framed (buildClient ext operation endpoint).
Proof. unfold buildClient. framed_steps. Qed.

Lemma framed_dispatch ext endpoint doc vars operation subscriber :
  framed (dispatch ext endpoint doc vars operation subscriber).
Proof.
  unfold dispatch.
  apply framed_bind; [apply framed_buildClient | intros c].
  framed_steps.
Qed.

Lemma framed_executeOne ext endpoint doc vars operation :
  framed (executeOne ext endpoint doc vars operation).
Proof.
  unfold executeOne.
  repeat (apply framed_bind; [auto with framed | intros _]).
  apply framed_try_catch; [apply framed_dispatch | auto with framed].
Qed.

(** *** The executor's loop *)

Lemma executeOne_returns ext endpoint doc vars operation w :
  fst (executeOne ext endpoint doc vars operation w) = Returned tt.
Proof.
  unfold executeOne, bind, appendLine, try_catch, console_error. simpl.
  match goal with
  | |- context [dispatch ?e ?ep ?d ?v ?o ?s ?w0] =>
      destruct (dispatch e ep d v o s w0) as [[[] | err] w1]
  end; reflexivity.
Qed.

(** The world after the mapped calls: the logs of each call, made alone
    in the blank world, appended in index order. *)
Lemma map_async_world {A B} (f : A -> M B) (xs : list A) :
  (forall x, framed (f x)) ->
  forall w,
    snd (map_async f xs w)
    = fold_left (fun acc x => extend acc (snd (f x (blank w)))) xs w.
Proof.
  intros Hf. induction xs as [| x rest IH]; intros w; simpl; [reflexivity |].
  unfold async. rewrite (Hf x w).
  destruct (f x (blank w)) as [[b | e] d]; simpl;
    destruct (map_async f rest (extend w d)) as [ps w2] eqn:Hrest; simpl;
    change w2 with (snd (ps, w2)); rewrite <- Hrest, IH, blank_extend;
    reflexivity.
Qed.

Lemma map_async_promises {A} (f : A -> M unit) (xs : list A) :
  (forall x w, fst (f x w) = Returned tt) ->
  forall w, Promise_all (fst (map_async f xs w))
            = Fulfilled (repeat tt (List.length xs)).
Proof.
  intros Hf. induction xs as [| x rest IH]; intros w; simpl; [reflexivity |].
  unfold async. specialize (Hf x w).
  destruct (f x w) as [[b | e] w1]; simpl in Hf; [| discriminate].
  specialize (IH w1).
  destruct (map_async f rest w1) as [ps w2]; simpl in *.
  destruct b. now rewrite IH.
Qed.

Section Projection.
Variable T : Type.
Variable proj : World -> list T.
Hypothesis proj_extend : forall w d, proj (extend w d) = (proj w ++ proj d)%list.

Lemma proj_fold_extend {A} (g : A -> World) (xs : list A) :
  forall w,
    proj (fold_left (fun acc x => extend acc (g x)) xs w)
    = (proj w ++ flat_map (fun x => proj (g x)) xs)%list.
Proof.
  induction xs as [| x rest IH]; intros w; simpl.
  - now rewrite app_nil_r.
  - now rewrite IH, proj_extend, app_assoc.
Qed.
End Projection.

(** What the [try] block does in a blank world: it never writes to the
    console; when it returns, it has built a client and subscribed one
    stream on it; when it throws, no stream is subscribed. *)
Lemma dispatch_blank ext endpoint doc vars operation w :
  match dispatch ext endpoint doc vars operation (operation_string operation) (blank w) with
  | (Returned _, d) =>
      console d = []
      /\ exists c,
           fst (buildClient ext (operation_string operation) endpoint (blank w))
           = Returned c
           /\ clients d = [c]
           /\ subscriptions d
              = [mkSubscription operation c doc vars (operation_string operation)]
  | (Thrown _, d) =>
      console d = [] /\ subscriptions d = []
      /\ match buildClient ext (operation_string operation) endpoint (blank w) with
         | (Returned c, _) => clients d = [c]
         | (Thrown _, _) => clients d = []
         end
  end.
Proof.
  unfold dispatch, pipe_subscribe, buildClient, bind, ret, throw,
    getConfiguration, createWSClient, new_URL_protocol, createClient.
  destruct operation; cbn [operation_string String.eqb Ascii.eqb Bool.eqb];
    repeat (split_external ext; unfold ret, throw; cbn [fst snd]);
    cbn; repeat split; eauto.
Qed.

Lemma executeOne_blank ext endpoint doc vars operation w :
  let d := snd (dispatch ext endpoint doc vars operation
                  (operation_string operation) (blank w)) in
  let alone := snd (executeOne ext endpoint doc vars operation (blank w)) in
  subscriptions alone = subscriptions d
  /\ clients alone = clients d
  /\ console alone
     = match fst (dispatch ext endpoint doc vars operation
                    (operation_string operation) (blank w)) with
       | Returned _ => console d
       | Thrown _ => (console d ++ ["error executing operation"])%list
       end.
Proof.
  cbn zeta.
  unfold executeOne, bind, appendLine, try_catch, console_error.
  cbn [fst snd].
  match goal with
  | |- context [dispatch ?e ?ep ?dc ?v ?o ?s (mkWorld ?c ?o1 ?o2 ?o3 ?o4 ?o5)] =>
      rewrite (framed_dispatch e ep dc v o s (mkWorld c o1 o2 o3 o4 o5));
      change (blank (mkWorld c o1 o2 o3 o4 o5)) with (blank w)
  end.
  destruct (dispatch ext endpoint doc vars operation
              (operation_string operation) (blank w)) as [[u | e] d];
    cbn; repeat split; reflexivity.
Qed.

Lemma executeAll_world ext endpoint doc vars operationTypes w :
  snd (executeAll ext endpoint doc vars operationTypes w)
  = fold_left (fun acc operation => extend acc (alone ext endpoint doc vars w operation))
              operationTypes w.
Proof.
  unfold executeAll, alone.
  rewrite <- (map_async_world (executeOne ext endpoint doc vars) operationTypes
                (framed_executeOne ext endpoint doc vars) w).
  now destruct (map_async (executeOne ext endpoint doc vars) operationTypes w).
Qed.

(** C1. Whatever the libraries throw while a client is built or started,
    the promise of the loop is fulfilled, with one value per operation;
    the streams subscribed are, in order, those that each operation
    subscribes when it is executed alone, so no operation is kept from
    being dispatched by a sibling; and an operation whose [try] block
    throws subscribes nothing and leaves one line on the console. *)
Theorem executeAll_isolates_failures ext endpoint doc vars operationTypes w :
  let run := executeAll ext endpoint doc vars operationTypes w in
  fst run = Fulfilled (repeat tt (List.length operationTypes))
  /\ subscriptions (snd run)
     = (subscriptions w
        ++ flat_map (fun operation =>
                       subscriptions (alone ext endpoint doc vars w operation))
                    operationTypes)%list
  /\ console (snd run)
     = (console w
        ++ flat_map (fun operation =>
                       console (alone ext endpoint doc vars w operation))
                    operationTypes)%list
  /\ forall operation,
       match fst (dispatch ext endpoint doc vars operation
                    (operation_string operation) (blank w)) with
       | Returned _ =>
           console (alone ext endpoint doc vars w operation) = []
           /\ exists c,
                subscriptions (alone ext endpoint doc vars w operation)
                = [mkSubscription operation c doc vars (operation_string operation)]
       | Thrown _ =>
           console (alone ext endpoint doc vars w operation)
           = ["error executing operation"]
           /\ subscriptions (alone ext endpoint doc vars w operation) = []
       end.
Proof.
  cbn zeta. repeat split.
  - unfold executeAll.
    pose proof (map_async_promises (executeOne ext endpoint doc vars) operationTypes
                  (executeOne_returns ext endpoint doc vars) w) as Hp.
    now destruct (map_async (executeOne ext endpoint doc vars) operationTypes w).
  - rewrite executeAll_world.
    now apply (proj_fold_extend subscriptions).
  - rewrite executeAll_world.
    now apply (proj_fold_extend console).
  - intros operation. unfold alone.
    destruct (executeOne_blank ext endpoint doc vars operation w) as (Hs & _ & Hc).
    pose proof (dispatch_blank ext endpoint doc vars operation w) as Hd.
    rewrite Hs, Hc.
    destruct (dispatch ext endpoint doc vars operation
                (operation_string operation) (blank w)) as [[u | e] d];
      cbn [fst snd] in *.
    + destruct Hd as (Hcons & c & _ & _ & Hsub). split; [exact Hcons |].
      exists c. exact Hsub.
    + destruct Hd as (Hcons & Hsub & _). now rewrite Hcons, Hsub.
Qed.



(** The promise of executeOperation is fulfilled once the fragments are
    resolved and the combined text parses, whatever happens in the loop. *)
Lemma executeOperation_fulfilled ext (Config : Type)
    (getFragmentDefinitions : Config -> Outcome (list (string * FragmentInfo)))
    (getFragmentDependenciesForAST :
       DocumentNode -> list (string * FragmentInfo) -> Outcome (list FragmentInfo))
    (gql : string -> Outcome DocumentNode)
    endpoint literal vars projectConfig w defs fragmentInfos parsed :
  getFragmentDefinitions projectConfig = Returned defs ->
  getFragmentDependenciesForAST (ast literal) defs = Returned fragmentInfos ->
  gql (JS.LF ++ "      "
       ++ literal_content (inlineFragments fragmentInfos literal) ++ JS.LF ++ "    ")
  = Returned parsed ->
  fst (fst (executeOperation ext getFragmentDefinitions getFragmentDependenciesForAST
              gql endpoint literal vars projectConfig w))
  = Fulfilled (repeat tt (List.length (operations (ast literal))))
  /\ snd (fst (executeOperation ext getFragmentDefinitions getFragmentDependenciesForAST
                 gql endpoint literal vars projectConfig w))
     = inlineFragments fragmentInfos literal.
Proof.
  intros Hdefs Hdeps Hgql. unfold executeOperation.
  rewrite Hdefs, Hdeps, Hgql.
  rewrite classify_spec. cbn [fst].
  unfold executeAll.
  pose proof (map_async_promises (executeOne ext endpoint parsed vars)
                (map operation (operations (ast literal)))
                (executeOne_returns ext endpoint parsed vars) w) as Hp.
  destruct (map_async (executeOne ext endpoint parsed vars)
              (map operation (operations (ast literal))) w) as [ps w'].
  cbn [fst snd] in *. now rewrite Hp, length_map.
Qed.

(** *** Runs on concrete inputs *)

(** Of three operations the second fails to build its client: the first
    and the third are dispatched, the failure is logged once, and the
    promise is fulfilled. *)
Example second_of_three_fails :
  let endpoint := mkEndpoint "http://host/graphql" [] in
  let run := executeAll no_websocket endpoint (mkDocument []) []
               [query; subscription; mutation] (fresh_world (JS.Bool true)) in
  fst run = Fulfilled [tt; tt; tt]
  /\ map method (subscriptions (snd run)) = [query; mutation]
  /\ map tag (subscriptions (snd run)) = ["query"; "mutation"]
  /\ console (snd run) = ["error executing operation"]
  /\ outputChannel (snd run)
     = ["NetworkHelper: operation: query"; "NetworkHelper: endpoint: http://host/graphql";
        "NetworkHelper: operation: subscription";
        "NetworkHelper: endpoint: http://host/graphql";
        "NetworkHelper: operation: mutation";
        "NetworkHelper: endpoint: http://host/graphql"].
Proof. cbn zeta. repeat split; reflexivity. Qed.

(** Two operations of one kind get a client each. *)
Example two_queries_two_clients :
  let doc := mkDocument [OperationDefinition (mkOperation query (Some (mkName "A")) []);
                         FragmentDefinition "F" [];
                         OperationDefinition (mkOperation query None [])] in
  classify doc = ([query; query], ["A"; ""])
  /\ List.length (clients (snd (executeAll quiet (mkEndpoint "http://host/graphql" [])
                                  doc [] (fst (classify doc))
                                  (fresh_world (JS.Bool true))))) = 2.
Proof. cbn zeta. split; reflexivity. Qed.

Example network_error_string :
  callback_calls "mutation"
    (mkResult JS.Undefined JS.Undefined
       (Some (mkCombinedError (Some []) (Some (JS.new_Error "x")))))
  = [("Error: x", "mutation")].
Proof. reflexivity. Qed.

(** Both branches fire for an event that has [data] and an [error]. *)
Example both_branches :
  List.length
    (callback_calls "query"
       (mkResult JS.Undefined (JS.Object [("foo", JS.Number 1)])
          (Some (mkCombinedError (Some [JS.Object [("message", JS.Str "boom")]])
                                 (Some (JS.new_Error "x"))))))
  = 3.
Proof. reflexivity. Qed.

Example insecure_endpoint_ignores_setting :
  let endpoint := mkEndpoint "http://host/graphql" [("authorization", "token")] in
  fst (buildClient quiet "query" endpoint (fresh_world (JS.Bool false)))
  = fst (buildClient quiet "query" endpoint (fresh_world (JS.Bool true)))
  /\ fst (buildClient quiet "query" endpoint (fresh_world (JS.Bool false)))
     = Returned (mkClient "http://host/graphql"
                   (mkFetchOptions [("authorization", "token")] None)
                   defaultExchanges).
Proof. cbn zeta. split; reflexivity. Qed.

Example secure_subscription_endpoint :
  replace_leading_http "https://host/graphql" = "wss://host/graphql"
  /\ replace_leading_http "HTTP://host/graphql" = "HTTP://host/graphql"
  /\ scheme_protocol "HTTPS://host/graphql" = Some "https:"
  /\ scheme_protocol "/graphql" = None.
Proof. repeat split; reflexivity. Qed.

(** *** The theorems at concrete inputs *)

Lemma inlineFragments_not_idempotent_witness :
  let fragmentInfos := [mkFragmentInfo "F" "fragment F on T { id }"] in
  let literal := mkLiteral "query Q { t { ...F } }" (mkDocument []) in
  fragmentInfos <> []
  /\ literal_content (inlineFragments fragmentInfos
                        (inlineFragments fragmentInfos literal))
     <> literal_content (inlineFragments fragmentInfos literal).
Proof.
  cbn zeta. split; [discriminate |].
  apply (@inlineFragments_not_idempotent
           [mkFragmentInfo "F" "fragment F on T { id }"]
           (mkLiteral "query Q { t { ...F } }" (mkDocument []))).
  discriminate.
Defined.

Lemma consumer_data_branch_witness :
  let result := mkResult JS.Undefined (JS.Object [("foo", JS.Number 1)]) None in
  (JS.truthy (data result) = true \/ JS.truthy (errors result) = true)
  /\ callback_calls "query" result
     = [("{" ++ JS.LF ++ "  " ++ JS.quote "data" ++ ": {" ++ JS.LF
         ++ "    " ++ JS.quote "foo" ++ ": 1" ++ JS.LF
         ++ "  }" ++ JS.LF ++ "}", "query")].
Proof.
  cbn zeta. split; [left; reflexivity |].
  apply (@consumer_data_branch "query"
           (mkResult JS.Undefined (JS.Object [("foo", JS.Number 1)]) None)).
  - left; reflexivity.
  - reflexivity.
Defined.

Lemma consumer_drops_empty_event_witness :
  let result := mkResult JS.Undefined JS.Null None in
  JS.truthy (data result) = false
  /\ JS.truthy (errors result) = false
  /\ error result = None
  /\ callback_calls "subscription" result = [].
Proof.
  cbn zeta.
  split; [reflexivity |]. split; [reflexivity |]. split; [reflexivity |].
  apply (@consumer_drops_empty_event "subscription"
           (mkResult JS.Undefined JS.Null None)); reflexivity.
Defined.

Lemma buildClient_websocket_witness :
  let endpoint := mkEndpoint "http://host/graphql" [] in
  let w := fresh_world (JS.Bool true) in
  let c := mkClient "http://host/graphql" (mkFetchOptions [] None)
             (defaultExchanges
              ++ [subscriptionExchange (mkWSClient "ws://host/graphql" 3000)])%list in
  buildClient quiet "subscription" endpoint w
  = (Returned c, snd (buildClient quiet "subscription" endpoint w))
  /\ ws_subclients c = [mkWSClient "ws://host/graphql" 3000].
Proof.
  cbn zeta. split; [reflexivity |].
  apply (@buildClient_websocket quiet "subscription"
           (mkEndpoint "http://host/graphql" []) (fresh_world (JS.Bool true))
           (mkClient "http://host/graphql" (mkFetchOptions [] None)
              (defaultExchanges
               ++ [subscriptionExchange (mkWSClient "ws://host/graphql" 3000)])%list)
           (snd (buildClient quiet "subscription"
                     (mkEndpoint "http://host/graphql" [])
                     (fresh_world (JS.Bool true))))).
  - reflexivity.
  - reflexivity.
Defined.

Lemma buildClient_agent_witness :
  let endpoint := mkEndpoint "https://host/graphql" [] in
  let w := fresh_world (JS.Bool false) in
  let c := mkClient "https://host/graphql"
             (mkFetchOptions [] (Some (mkAgent (JS.Bool false)))) defaultExchanges in
  buildClient quiet "query" endpoint w
  = (Returned c, snd (buildClient quiet "query" endpoint w))
  /\ (agent (fetchOptions c) = Some (mkAgent (JS.Bool false))
      <-> URL_protocol quiet (url endpoint) = Some "https:").
Proof.
  cbn zeta. split; [reflexivity |].
  apply (@buildClient_agent quiet "query"
           (mkEndpoint "https://host/graphql" []) (fresh_world (JS.Bool false))
           (mkClient "https://host/graphql"
              (mkFetchOptions [] (Some (mkAgent (JS.Bool false)))) defaultExchanges)
           (snd (buildClient quiet "query"
                     (mkEndpoint "https://host/graphql" [])
                     (fresh_world (JS.Bool false))))).
  reflexivity.
Defined.

(* ===================================================================== *)
(** ** Further properties *)
(* ===================================================================== *)

(** *** The result consumer *)

(** Every call the consumer makes carries the operation the consumer was
    built with, and one event causes three calls at most. *)
Theorem consumer_calls_tagged (operation : string) (result : OperationResult) :
  Forall (fun call => snd call = operation) (callback_calls operation result)
  /\ List.length (callback_calls operation result) <= 3.
Proof.
  unfold callback_calls, buildSubscribeConsumer, record_call.
  destruct (JS.truthy (JS.or (errors result) (data result)));
    destruct (error result) as [[[errs |] [e |]] |]; simpl;
    try destruct (Nat.ltb 0 (List.length errs)); simpl;
    (split; [repeat constructor | lia]).
Qed.

(** An event that has truthy [data] or [errors], an [error] with GraphQL
    errors and a network error causes three calls, in this order: the
    serialized [{data, errors}], the serialized GraphQL errors, the
    network error's string. *)
Theorem consumer_all_branches (operation : string) (result : OperationResult)
    (errs : list JS.value) (e : JS.Error) :
  JS.truthy (data result) = true \/ JS.truthy (errors result) = true ->
  errs <> [] ->
  error result = Some (mkCombinedError (Some errs) (Some e)) ->
  callback_calls operation result
  = [(formatData result, operation);
     (JS.JSON_stringify_object [("errors", JS.Array errs)] 2, operation);
     (JS.Error_toString e, operation)].
Proof.
  intros Htruthy Hne Herror.
  assert (Hor : JS.truthy (JS.or (errors result) (data result)) = true).
  { rewrite truthy_or. destruct Htruthy as [H | H]; rewrite H;
      [apply orb_true_r | reflexivity]. }
  unfold callback_calls, buildSubscribeConsumer, record_call.
  rewrite Hor, Herror. cbn [graphQLErrors networkError].
  destruct errs as [| err rest]; [contradiction | reflexivity].
Qed.

(** An event whose [error] object has no GraphQL error (the array is
    empty or undefined) and no network error, and whose [data] and
    [errors] are falsy, causes no call: the error is dropped. *)
Theorem consumer_empty_error_silent (operation : string) (result : OperationResult)
    (err : CombinedError) :
  JS.truthy (data result) = false ->
  JS.truthy (errors result) = false ->
  error result = Some err ->
  graphQLErrors err = None \/ graphQLErrors err = Some [] ->
  networkError err = None ->
  callback_calls operation result = [].
Proof.
  intros Hdata Herrors Herror Hgql Hnet.
  rewrite callback_calls_split, truthy_or, Hdata, Herrors.
  unfold callback_calls, buildSubscribeConsumer, error_only. cbn.
  rewrite Herror, Hnet. destruct Hgql as [-> | ->]; reflexivity.
Qed.

(** *** formatData *)

Lemma SerializeJSONProperty_None (gap indent : string) (v : JS.value) :
  JS.SerializeJSONProperty gap indent v = None <-> v = JS.Undefined.
Proof.
  destruct v as [| | [|] | n | s | xs | props]; simpl; split;
    intros H; try reflexivity; discriminate H.
Qed.

Lemma members_filter (gap inner : string) (props : list (string * JS.value)) :
  flat_map (fun kv : string * JS.value =>
              let (k, x) := kv in
              match JS.SerializeJSONProperty gap inner x with
              | Some s => [JS.quote k ++ ": " ++ s]
              | None => []
              end) props
  = flat_map (fun kv : string * JS.value =>
                let (k, x) := kv in
                match JS.SerializeJSONProperty gap inner x with
                | Some s => [JS.quote k ++ ": " ++ s]
                | None => []
                end) (filter (fun kv => is_defined (snd kv)) props).
Proof.
  induction props as [| [k x] rest IH]; [reflexivity |].
  cbn [flat_map filter snd].
  destruct x; cbn [is_defined flat_map]; rewrite IH; reflexivity.
Qed.

(** The payload of the data branch holds the keys "data" and "errors" in
    this order, each only when its value is not [undefined]; a [null]
    value is kept. *)
Theorem formatData_omits_undefined (result : OperationResult) :
  formatData result
  = JS.JSON_stringify_object
      (filter (fun kv => is_defined (snd kv))
              [("data", data result); ("errors", errors result)]) 2.
Proof.
  unfold formatData, JS.JSON_stringify_object, JS.SerializeJSONObject.
  now rewrite <- members_filter.
Qed.

(** *** The client builder *)

(** The client that buildClient returns talks to the endpoint URL as it
    is given (it is not rewritten, for a subscription either), sends the
    endpoint's headers, and keeps the default exchanges in front of
    whatever else it has. *)
Theorem buildClient_keeps_endpoint ext operation endpoint w c w' :
  buildClient ext operation endpoint w = (Returned c, w') ->
  client_url c = url endpoint
  /\ fetch_headers (fetchOptions c) = headers endpoint
  /\ firstn 3 (exchanges c) = defaultExchanges.
Proof.
  intros Hrun.
  run_buildClient ext operation Hrun; inversion Hrun; subst; clear Hrun;
    repeat split.
Qed.

(** buildClient only reads the configuration and never writes to the
    output channel or the console, nor subscribes a stream; the client it
    returns is the one client it has created, and it has created none
    when it throws. *)
Theorem buildClient_effects ext operation endpoint w :
  let w' := snd (buildClient ext operation endpoint w) in
  configuration w' = configuration w
  /\ outputChannel w' = outputChannel w
  /\ console w' = console w
  /\ subscriptions w' = subscriptions w
  /\ clients w'
     = match fst (buildClient ext operation endpoint w) with
       | Returned c => (clients w ++ [c])%list
       | Thrown _ => clients w
       end.
Proof.
  cbn zeta.
  unfold buildClient, bind, ret, throw, getConfiguration, createWSClient,
    new_URL_protocol, createClient.
  destruct (String.eqb operation "subscription");
    repeat (split_external ext; unfold ret, throw);
    cbn; repeat split.
Qed.

(** With an endpoint URL that the URL parser rejects, buildClient throws
    for every operation kind and creates no client. *)
Theorem buildClient_invalid_url ext operation endpoint w :
  URL_protocol ext (url endpoint) = None ->
  (exists e, fst (buildClient ext operation endpoint w) = Thrown e)
  /\ clients (snd (buildClient ext operation endpoint w)) = clients w.
Proof.
  intros Hurl.
  unfold buildClient, bind, throw, getConfiguration, createWSClient,
    new_URL_protocol, createClient.
  rewrite Hurl. unfold ret.
  destruct (String.eqb operation "subscription");
    repeat split_external ext; cbn; split; eauto.
Qed.

(** For a subscription the WebSocket client is created before the
    endpoint URL is parsed: when the parser rejects the URL, buildClient
    throws the parser's error with the WebSocket client already created. *)
Theorem buildClient_invalid_url_after_websocket ext endpoint w :
  URL_protocol ext (url endpoint) = None ->
  createWSClient_throws ext (ws_client_of endpoint) = false ->
  fst (buildClient ext "subscription" endpoint w) = Thrown "TypeError: Invalid URL"
  /\ wsClients (snd (buildClient ext "subscription" endpoint w))
     = (wsClients w ++ [ws_client_of endpoint])%list
  /\ clients (snd (buildClient ext "subscription" endpoint w)) = clients w.
Proof.
  intros Hurl Hws.
  unfold buildClient, bind, throw, getConfiguration, createWSClient,
    new_URL_protocol, createClient.
  unfold ws_client_of in Hws. cbn [String.eqb Ascii.eqb Bool.eqb].
  rewrite Hws, Hurl. cbn. repeat split.
Qed.

(** Rewriting the scheme a second time changes nothing: what the first
    rewriting gives does not start with "http". *)
Theorem replace_leading_http_idempotent (u : string) :
  replace_leading_http (replace_leading_http u) = replace_leading_http u.
Proof.
  unfold replace_leading_http at 2 3.
  destruct (strip_prefix "http" u) as [rest |] eqn:Hprefix.
  - reflexivity.
  - now apply replace_leading_http_other.
Qed.

Lemma strip_prefix_append (p s rest : string) :
  strip_prefix p s = Some rest -> s = p ++ rest.
Proof.
  revert s. induction p as [| a p IH]; intros s; simpl.
  - now intros [= ->].
  - destruct s as [| b s]; [discriminate |].
    destruct (Ascii.eqb_spec a b) as [-> | _]; [| discriminate].
    intros H. now rewrite (IH s H).
Qed.

(** The WebSocket URL is the endpoint URL itself exactly when the endpoint
    URL does not start with the four characters "http", in this case;
    otherwise it is two characters shorter. *)
Theorem replace_leading_http_cases (u : string) :
  (strip_prefix "http" u = None /\ replace_leading_http u = u)
  \/ (exists rest, u = "http" ++ rest
                   /\ replace_leading_http u = "ws" ++ rest
                   /\ String.length u = String.length (replace_leading_http u) + 2).
Proof.
  unfold replace_leading_http.
  destruct (strip_prefix "http" u) as [rest |] eqn:Hprefix.
  - right. exists rest. apply strip_prefix_append in Hprefix. subst u.
    repeat split. cbn [String.append String.length]. lia.
  - left. split; reflexivity.
Qed.

(** *** The fragment inliner *)

(** Inlining two lists of fragments one after the other is inlining
    their concatenation. *)
Theorem inlineFragments_app (fs1 fs2 : list FragmentInfo)
    (literal : ExtractedTemplateLiteral) :
  inlineFragments (fs1 ++ fs2) literal
  = inlineFragments fs2 (inlineFragments fs1 literal).
Proof. unfold inlineFragments. now rewrite fold_left_app. Qed.

(** After inlining, the content is the fragments' texts, each followed by
    a line feed, the last fragment of the list first, and then the
    content as it was; the syntax tree of the literal is not touched, so
    the literal classifies as before. *)
Theorem inlineFragments_order (fragmentInfos : list FragmentInfo)
    (literal : ExtractedTemplateLiteral) :
  literal_content (inlineFragments fragmentInfos literal)
  = fold_right String.append ""
      (map (fun fragmentInfo => content fragmentInfo ++ JS.LF) (rev fragmentInfos))
    ++ literal_content literal
  /\ ast (inlineFragments fragmentInfos literal) = ast literal
  /\ classify (ast (inlineFragments fragmentInfos literal)) = classify (ast literal).
Proof.
  rewrite inlineFragments_content, prepended_rev, inlineFragments_ast.
  repeat split.
Qed.

(** Inlining makes the content longer by the lengths of the fragments'
    texts and one line feed for each. *)
Theorem inlineFragments_length (fragmentInfos : list FragmentInfo)
    (literal : ExtractedTemplateLiteral) :
  String.length (literal_content (inlineFragments fragmentInfos literal))
  = list_sum (map (fun fragmentInfo => String.length (content fragmentInfo) + 1)
                  fragmentInfos)
    + String.length (literal_content literal).
Proof.
  revert literal.
  induction fragmentInfos as [| f fs IH]; intros literal; [reflexivity |].
  change (inlineFragments (f :: fs) literal)
    with (inlineFragments fs
            (mkLiteral (content f ++ JS.LF ++ literal_content literal) (ast literal))).
  rewrite IH. cbn [literal_content].
  change (list_sum (map (fun fragmentInfo => String.length (content fragmentInfo) + 1)
                        (f :: fs)))
    with (String.length (content f) + 1
          + list_sum (map (fun fragmentInfo => String.length (content fragmentInfo) + 1)
                          fs)).
  rewrite !length_append.
  change (String.length JS.LF) with 1. lia.
Qed.

(** *** The operation classifier *)

Lemma operations_app (d1 d2 : list DefinitionNode) :
  operations (mkDocument (d1 ++ d2))
  = (operations (mkDocument d1) ++ operations (mkDocument d2))%list.
Proof. unfold operations. cbn [definitions]. apply flat_map_app. Qed.

(** Classifying a document made of two runs of definitions gives the
    kinds and the names of the first run followed by those of the
    second. *)
Theorem classify_app (d1 d2 : list DefinitionNode) :
  classify (mkDocument (d1 ++ d2))
  = ((fst (classify (mkDocument d1)) ++ fst (classify (mkDocument d2)))%list,
     (snd (classify (mkDocument d1)) ++ snd (classify (mkDocument d2)))%list).
Proof.
  rewrite !classify_spec, operations_app. cbn [fst snd].
  now rewrite !map_app.
Qed.

(** Definitions that are not operations (fragment and type system
    definitions) do not show in the classification: the document
    classifies as the document of its operation definitions alone. *)
Theorem classify_ignores_other_definitions (doc : DocumentNode) :
  classify doc
  = classify (mkDocument (filter is_operation_definition (definitions doc))).
Proof.
  rewrite !classify_spec.
  assert (H : operations (mkDocument (filter is_operation_definition (definitions doc)))
              = operations doc).
  { unfold operations. cbn [definitions].
    induction (definitions doc) as [| d defs IH]; [reflexivity |].
    destruct d; cbn [filter is_operation_definition flat_map]; now rewrite IH. }
  now rewrite H.
Qed.

(** The names array holds the empty string exactly at the operations
    that have no name or an empty one: an entry that is not empty is the
    name of its operation. *)
Theorem classify_names (doc : DocumentNode) :
  Forall2 (fun node n =>
             match name node with
             | Some nm => n = value nm
             | None => n = ""
             end)
          (operations doc) (snd (classify doc)).
Proof.
  rewrite classify_spec. cbn [snd].
  induction (operations doc) as [| node ops IH]; constructor; [| exact IH].
  unfold operationName. destruct (name node) as [nm |]; [| reflexivity].
  destruct (String.eqb_spec (value nm) "") as [Heq | _]; [now rewrite Heq | reflexivity].
Qed.

(** *** The executor *)

Lemma dispatch_blank_more ext endpoint doc vars operation w :
  let d := snd (dispatch ext endpoint doc vars operation
                  (operation_string operation) (blank w)) in
  outputChannel d = []
  /\ wsClients d
     = (if String.eqb (operation_string operation) "subscription"
           && negb (createWSClient_throws ext (ws_client_of endpoint))
        then [ws_client_of endpoint] else []).
Proof.
  cbn zeta.
  unfold dispatch, pipe_subscribe, buildClient, bind, ret, throw,
    getConfiguration, createWSClient, new_URL_protocol, createClient, ws_client_of.
  destruct operation; cbn [operation_string String.eqb Ascii.eqb Bool.eqb andb];
    repeat (split_external ext; unfold ret, throw; cbn [fst snd negb]);
    cbn; split; reflexivity.
Qed.

Lemma executeOne_blank_more ext endpoint doc vars operation w :
  let d := snd (dispatch ext endpoint doc vars operation
                  (operation_string operation) (blank w)) in
  let one := alone ext endpoint doc vars w operation in
  outputChannel one = (output_lines endpoint operation ++ outputChannel d)%list
  /\ wsClients one = wsClients d.
Proof.
  cbn zeta. unfold alone.
  unfold executeOne, bind, appendLine, try_catch, console_error.
  cbn [fst snd].
  match goal with
  | |- context [dispatch ?e ?ep ?dc ?v ?o ?s (mkWorld ?c ?o1 ?o2 ?o3 ?o4 ?o5)] =>
      rewrite (framed_dispatch e ep dc v o s (mkWorld c o1 o2 o3 o4 o5));
      change (blank (mkWorld c o1 o2 o3 o4 o5)) with (blank w)
  end.
  destruct (dispatch ext endpoint doc vars operation
              (operation_string operation) (blank w)) as [[u | e] d];
    cbn; split; reflexivity.
Qed.

Lemma outputChannel_executeAll ext endpoint doc vars operationTypes w :
  outputChannel (snd (executeAll ext endpoint doc vars operationTypes w))
  = (outputChannel w ++ flat_map (output_lines endpoint) operationTypes)%list.
Proof.
  rewrite executeAll_world.
  rewrite (proj_fold_extend outputChannel) by reflexivity.
  f_equal. induction operationTypes as [| operation rest IH]; [reflexivity |].
  cbn [flat_map]. rewrite IH. f_equal.
  destruct (executeOne_blank_more ext endpoint doc vars operation w) as [Ho _].
  destruct (dispatch_blank_more ext endpoint doc vars operation w) as [Hd _].
  now rewrite Ho, Hd, app_nil_r.
Qed.

(** An invocation appends two lines per operation to the output channel,
    the operation kind and the endpoint URL, in the order of the
    operations, whether the operation is dispatched or fails. *)
Theorem executeAll_output_lines ext endpoint doc vars operationTypes w :
  outputChannel (snd (executeAll ext endpoint doc vars operationTypes w))
  = (outputChannel w ++ flat_map (output_lines endpoint) operationTypes)%list.
Proof. apply outputChannel_executeAll. Qed.

(** An invocation creates one WebSocket client for every subscription
    among the operations, each with the rewritten endpoint URL and the
    3000 ms timeout, and none at all when the constructor throws; the
    other kinds of operation create none. *)
Theorem executeAll_websocket_clients ext endpoint doc vars operationTypes w :
  wsClients (snd (executeAll ext endpoint doc vars operationTypes w))
  = (wsClients w
     ++ if createWSClient_throws ext (ws_client_of endpoint) then []
        else repeat (ws_client_of endpoint)
               (List.length
                  (filter (fun operation =>
                             String.eqb (operation_string operation) "subscription")
                          operationTypes)))%list.
Proof.
  rewrite executeAll_world.
  rewrite (proj_fold_extend wsClients) by reflexivity.
  f_equal. induction operationTypes as [| operation rest IH].
  - now destruct (createWSClient_throws ext (ws_client_of endpoint)).
  - cbn [flat_map filter]. rewrite IH.
    destruct (executeOne_blank_more ext endpoint doc vars operation w) as [_ Ho].
    destruct (dispatch_blank_more ext endpoint doc vars operation w) as [_ Hd].
    rewrite Ho, Hd.
    destruct (String.eqb (operation_string operation) "subscription");
      destruct (createWSClient_throws ext (ws_client_of endpoint)); reflexivity.
Qed.

Lemma alone_subscriptions ext endpoint doc vars w operation :
  if dispatched ext endpoint doc vars w operation
  then exists c,
         fst (buildClient ext (operation_string operation) endpoint (blank w))
         = Returned c
         /\ subscriptions (alone ext endpoint doc vars w operation)
            = [mkSubscription operation c doc vars (operation_string operation)]
  else subscriptions (alone ext endpoint doc vars w operation) = [].
Proof.
  unfold dispatched, alone.
  destruct (executeOne_blank ext endpoint doc vars operation w) as (Hs & _ & _).
  pose proof (dispatch_blank ext endpoint doc vars operation w) as Hd.
  rewrite Hs.
  destruct (dispatch ext endpoint doc vars operation
              (operation_string operation) (blank w)) as [[u | e] d];
    cbn [fst snd] in *.
  - destruct Hd as (_ & c & Hb & _ & Hsub). exists c. now split.
  - now destruct Hd as (_ & Hsub & _).
Qed.

(** The streams an invocation subscribes are in the order of the
    operations and leave out exactly the operations whose [try] block
    throws: their client methods are the kinds of the other operations. *)
Theorem executeAll_streams_in_order ext endpoint doc vars operationTypes w :
  exists streams,
    subscriptions (snd (executeAll ext endpoint doc vars operationTypes w))
    = (subscriptions w ++ streams)%list
    /\ map method streams
       = filter (dispatched ext endpoint doc vars w) operationTypes.
Proof.
  exists (flat_map (fun operation =>
                      subscriptions (alone ext endpoint doc vars w operation))
                   operationTypes).
  split.
  - rewrite executeAll_world. now apply (proj_fold_extend subscriptions).
  - induction operationTypes as [| operation rest IH]; [reflexivity |].
    cbn [flat_map filter]. rewrite map_app, IH.
    pose proof (alone_subscriptions ext endpoint doc vars w operation) as H.
    destruct (dispatched ext endpoint doc vars w operation).
    + destruct H as (c & _ & ->). reflexivity.
    + now rewrite H.
Qed.

Lemma buildClient_client ext operation endpoint w c w' :
  buildClient ext operation endpoint w = (Returned c, w') ->
  client_url c = url endpoint
  /\ ws_subclients c
     = (if String.eqb operation "subscription" then [ws_client_of endpoint] else []).
Proof.
  intros Hrun. unfold ws_client_of.
  run_buildClient ext operation Hrun; inversion Hrun; subst; clear Hrun;
    split; reflexivity.
Qed.

(** Every stream an invocation subscribes is requested with the client
    method of its operation kind, for the whole parsed document and the
    variables as given, on a client for the endpoint URL, and its
    consumer is tagged with that kind. *)
Theorem executeAll_streams_wellformed ext endpoint doc vars operationTypes w :
  exists streams,
    subscriptions (snd (executeAll ext endpoint doc vars operationTypes w))
    = (subscriptions w ++ streams)%list
    /\ Forall (fun s =>
                 In (method s) operationTypes
                 /\ tag s = operation_string (method s)
                 /\ document s = doc
                 /\ variables s = vars
                 /\ client_url (client s) = url endpoint
                 /\ (ws_subclients (client s) <> [] <-> method s = subscription))
              streams.
Proof.
  exists (flat_map (fun operation =>
                      subscriptions (alone ext endpoint doc vars w operation))
                   operationTypes).
  split.
  - rewrite executeAll_world. now apply (proj_fold_extend subscriptions).
  - apply Forall_flat_map, Forall_forall. intros operation Hin.
    pose proof (alone_subscriptions ext endpoint doc vars w operation) as H.
    destruct (dispatched ext endpoint doc vars w operation); [| now rewrite H].
    destruct H as (c & Hb & ->).
    constructor; [| constructor]. cbn [method tag document variables client].
    destruct (buildClient ext (operation_string operation) endpoint (blank w))
      as [o w1] eqn:Hrun.
    cbn [fst] in Hb. subst o.
    destruct (buildClient_client _ _ _ _ Hrun) as [Hurl Hws].
    repeat split; try assumption.
    + intros Hne. destruct operation; try reflexivity; now contradiction Hne.
    + intros ->. rewrite Hws. discriminate.
Qed.

Lemma map_async_framed {A B} (f : A -> M B) (xs : list A) :
  (forall x, framed (f x)) ->
  forall w,
    map_async f xs w
    = (fst (map_async f xs (blank w)), extend w (snd (map_async f xs (blank w)))).
Proof.
  intros Hf. induction xs as [| x rest IH]; intros w; simpl.
  - now rewrite extend_blank.
  - unfold async. rewrite (Hf x w).
    destruct (f x (blank w)) as [[b | e] d] eqn:Hx; cbn [fst snd];
      rewrite (IH (extend w d)), (IH d), blank_extend;
      assert (Hd : blank d = blank w)
        by (change d with (snd (@pair (Outcome B) World (fst (f x (blank w))) d));
            rewrite <- (framed_blank w (Hf x)); now rewrite Hx);
      rewrite Hd;
      destruct (map_async f rest (blank w)) as [ps d2]; cbn [fst snd];
      now rewrite extend_assoc.
Qed.

(** What an invocation does to a world is what it does to the blank world
    with the same configuration, appended: the promise, the lines logged
    and the clients and streams created do not depend on what earlier
    invocations have logged or created, and nothing of it is removed. *)
Theorem executeAll_framed ext endpoint doc vars operationTypes w :
  executeAll ext endpoint doc vars operationTypes w
  = (fst (executeAll ext endpoint doc vars operationTypes (blank w)),
     extend w (snd (executeAll ext endpoint doc vars operationTypes (blank w)))).
Proof.
  unfold executeAll.
  rewrite (map_async_framed (executeOne ext endpoint doc vars) operationTypes
             (framed_executeOne ext endpoint doc vars) w).
  now destruct (map_async (executeOne ext endpoint doc vars) operationTypes (blank w)).
Qed.

Lemma map_async_app {A B} (f : A -> M B) (xs ys : list A) (w : World) :
  map_async f (xs ++ ys) w
  = ((fst (map_async f xs w)
      ++ fst (map_async f ys (snd (map_async f xs w))))%list,
     snd (map_async f ys (snd (map_async f xs w)))).
Proof.
  revert w. induction xs as [| x rest IH]; intros w; simpl.
  - now destruct (map_async f ys w).
  - destruct (async (f x) w) as [p w1]. rewrite (IH w1).
    destruct (map_async f rest w1) as [ps w2]. cbn [fst snd].
    now destruct (map_async f ys w2).
Qed.

(** Executing the operations of a list is executing those of its first
    part and then, in the world this leaves, those of the rest. *)
Theorem executeAll_app ext endpoint doc vars ops1 ops2 w :
  snd (executeAll ext endpoint doc vars (ops1 ++ ops2) w)
  = snd (executeAll ext endpoint doc vars ops2
           (snd (executeAll ext endpoint doc vars ops1 w))).
Proof.
  unfold executeAll. rewrite map_async_app.
  destruct (map_async (executeOne ext endpoint doc vars) ops1 w) as [ps w1].
  cbn [fst snd].
  now destruct (map_async (executeOne ext endpoint doc vars) ops2 w1).
Qed.

(** With an endpoint URL that parses and libraries that do not throw,
    every operation is dispatched: one stream per operation, in order,
    one client each, and nothing on the console. *)
Theorem executeAll_all_dispatched ext endpoint doc vars operationTypes w protocol :
  URL_protocol ext (url endpoint) = Some protocol ->
  (forall o, createWSClient_throws ext o = false) ->
  (forall o, createClient_throws ext o = false) ->
  (forall m c, request_throws ext m c = false) ->
  let w' := snd (executeAll ext endpoint doc vars operationTypes w) in
  exists streams,
    subscriptions w' = (subscriptions w ++ streams)%list
    /\ map method streams = operationTypes
    /\ clients w' = (clients w ++ map client streams)%list
    /\ console w' = console w.
Proof.
  intros Hurl Hws Hclient Hreq. cbn zeta.
  assert (Hone : forall operation,
             exists c,
               subscriptions (alone ext endpoint doc vars w operation)
               = [mkSubscription operation c doc vars (operation_string operation)]
               /\ clients (alone ext endpoint doc vars w operation) = [c]
               /\ console (alone ext endpoint doc vars w operation) = []).
  { intros operation. unfold alone.
    unfold executeOne, dispatch, pipe_subscribe, buildClient, bind, ret, throw,
      appendLine, try_catch, console_error, getConfiguration, createWSClient,
      new_URL_protocol, createClient.
    destruct operation; cbn [operation_string String.eqb Ascii.eqb Bool.eqb];
      rewrite ?Hws, Hurl; unfold ret; rewrite Hclient, Hreq; cbn;
      eexists; repeat split. }
  exists (flat_map (fun operation =>
                      subscriptions (alone ext endpoint doc vars w operation))
                   operationTypes).
  rewrite executeAll_world.
  rewrite (proj_fold_extend subscriptions), (proj_fold_extend clients),
    (proj_fold_extend console) by reflexivity.
  repeat split.
  - induction operationTypes as [| operation rest IH]; [reflexivity |].
    cbn [flat_map]. rewrite map_app, IH.
    destruct (Hone operation) as (c & -> & _). reflexivity.
  - f_equal. induction operationTypes as [| operation rest IH]; [reflexivity |].
    cbn [flat_map]. rewrite map_app, IH.
    destruct (Hone operation) as (c & -> & -> & _). reflexivity.
  - rewrite <- (app_nil_r (console w)) at 2. f_equal.
    induction operationTypes as [| operation rest IH]; [reflexivity |].
    cbn [flat_map]. rewrite IH.
    destruct (Hone operation) as (c & _ & _ & ->). reflexivity.
Qed.

Section ExecuteOperation.
Variable ext : Externals.
Variable Config : Type.
Variable getFragmentDefinitions : Config -> Outcome (list (string * FragmentInfo)).
Variable getFragmentDependenciesForAST :
  DocumentNode -> list (string * FragmentInfo) -> Outcome (list FragmentInfo).
Variable gql : string -> Outcome DocumentNode.

(** The promise of executeOperation is rejected only by a failure of one
    of the two source-helper calls or of the parser, with that failure's
    error; and then nothing has been logged, created or subscribed. *)
Theorem executeOperation_rejected_untouched endpoint literal vars projectConfig w e :
  fst (fst (executeOperation ext getFragmentDefinitions getFragmentDependenciesForAST gql
     endpoint literal vars projectConfig w)) = Rejected e ->
  snd (executeOperation ext getFragmentDefinitions getFragmentDependenciesForAST gql
     endpoint literal vars projectConfig w) = w
  /\ (getFragmentDefinitions projectConfig = Thrown e
      \/ exists defs,
           getFragmentDefinitions projectConfig = Returned defs
           /\ (getFragmentDependenciesForAST (ast literal) defs = Thrown e
               \/ exists fragmentInfos,
                    getFragmentDependenciesForAST (ast literal) defs
                    = Returned fragmentInfos
                    /\ gql (JS.LF ++ "      "
       ++ literal_content (inlineFragments fragmentInfos literal) ++ JS.LF ++ "    ")
                       = Thrown e)).
Proof.
  unfold executeOperation.
  destruct (getFragmentDefinitions projectConfig) as [defs | e1];
    [| cbn; intros [= ->]; split; [reflexivity | now left]].
  destruct (getFragmentDependenciesForAST (ast literal) defs) as [fis | e2] eqn:Hdeps;
    [| cbn; intros [= ->]; split; [reflexivity |];
       right; exists defs; split; [reflexivity | left; exact Hdeps]].
  destruct (gql _) as [parsed | e3] eqn:Hgql;
    [| cbn; intros [= ->]; split; [reflexivity |];
       right; exists defs; split; [reflexivity |];
       right; exists fis; split; [exact Hdeps | exact Hgql]].
  unfold executeAll.
  pose proof (map_async_promises (executeOne ext endpoint parsed vars)
                (fst (classify (ast literal)))
                (executeOne_returns ext endpoint parsed vars) w) as Hp.
  destruct (map_async (executeOne ext endpoint parsed vars)
              (fst (classify (ast literal))) w) as [ps w'].
  cbn [fst snd] in *. rewrite Hp. discriminate.
Qed.

(** When the combined text does not parse, the promise is rejected and
    the world is as it was, but the literal has been changed already: its
    content starts with the inlined fragments and has grown by at least
    one character per fragment. *)
Theorem executeOperation_parse_failure_keeps_inlined
    endpoint literal vars projectConfig w defs fragmentInfos e :
  getFragmentDefinitions projectConfig = Returned defs ->
  getFragmentDependenciesForAST (ast literal) defs = Returned fragmentInfos ->
  gql (JS.LF ++ "      "
       ++ literal_content (inlineFragments fragmentInfos literal) ++ JS.LF ++ "    ") = Thrown e ->
  executeOperation ext getFragmentDefinitions getFragmentDependenciesForAST gql
     endpoint literal vars projectConfig w
  = (Rejected e, inlineFragments fragmentInfos literal, w)
  /\ literal_content (snd (fst (executeOperation ext getFragmentDefinitions getFragmentDependenciesForAST gql
     endpoint literal vars projectConfig w)))
     = prepended fragmentInfos ++ literal_content literal
  /\ List.length fragmentInfos + String.length (literal_content literal)
     <= String.length
          (literal_content (snd (fst (executeOperation ext getFragmentDefinitions getFragmentDependenciesForAST gql
     endpoint literal vars projectConfig w)))).
Proof.
  intros Hdefs Hdeps Hgql. unfold executeOperation.
  rewrite Hdefs, Hdeps, Hgql. cbn [fst snd].
  rewrite inlineFragments_content, length_append.
  pose proof (prepended_length fragmentInfos).
  repeat split. lia.
Qed.

(** When the fragments are resolved and the combined text parses, the
    output channel gets two lines for every operation definition of the
    literal's own syntax tree, in document order: the operations executed
    are those classified before inlining, whatever the parser returns. *)
Theorem executeOperation_output_lines
    endpoint literal vars projectConfig w defs fragmentInfos parsed :
  getFragmentDefinitions projectConfig = Returned defs ->
  getFragmentDependenciesForAST (ast literal) defs = Returned fragmentInfos ->
  gql (JS.LF ++ "      "
       ++ literal_content (inlineFragments fragmentInfos literal) ++ JS.LF ++ "    ") = Returned parsed ->
  outputChannel (snd (executeOperation ext getFragmentDefinitions getFragmentDependenciesForAST gql
     endpoint literal vars projectConfig w))
  = (outputChannel w
     ++ flat_map (output_lines endpoint) (map operation (operations (ast literal))))%list.
Proof.
  intros Hdefs Hdeps Hgql. unfold executeOperation.
  rewrite Hdefs, Hdeps, Hgql, classify_spec. cbn [fst].
  rewrite <- outputChannel_executeAll with (ext := ext) (doc := parsed) (vars := vars).
  now destruct (executeAll ext endpoint parsed vars
                  (map operation (operations (ast literal))) w).
Qed.

(** For a literal without an operation definition (fragments only) that
    resolves and parses, executeOperation fulfils its promise with the
    empty array and leaves the world as it was; the fragments have been
    inlined into the literal all the same. *)
Theorem executeOperation_no_operations
    endpoint literal vars projectConfig w defs fragmentInfos parsed :
  operations (ast literal) = [] ->
  getFragmentDefinitions projectConfig = Returned defs ->
  getFragmentDependenciesForAST (ast literal) defs = Returned fragmentInfos ->
  gql (JS.LF ++ "      "
       ++ literal_content (inlineFragments fragmentInfos literal) ++ JS.LF ++ "    ") = Returned parsed ->
  executeOperation ext getFragmentDefinitions getFragmentDependenciesForAST gql
     endpoint literal vars projectConfig w
  = (Fulfilled [], inlineFragments fragmentInfos literal, w).
Proof.
  intros Hops Hdefs Hdeps Hgql. unfold executeOperation.
  rewrite Hdefs, Hdeps, Hgql, classify_spec, Hops. reflexivity.
Qed.
End ExecuteOperation.

(** *** The further properties at concrete inputs *)

Lemma consumer_all_branches_witness :
  let e := JS.new_Error "x" in
  let errs := [JS.Object [("message", JS.Str "boom")]] in
  let result := mkResult JS.Undefined (JS.Object [("foo", JS.Number 1)])
                  (Some (mkCombinedError (Some errs) (Some e))) in
  errs <> []
  /\ callback_calls "query" result
     = [(formatData result, "query");
        (JS.JSON_stringify_object [("errors", JS.Array errs)] 2, "query");
        ("Error: x", "query")].
Proof.
  cbn zeta. split; [discriminate |].
  apply (@consumer_all_branches "query"
           (mkResult JS.Undefined (JS.Object [("foo", JS.Number 1)])
              (Some (mkCombinedError (Some [JS.Object [("message", JS.Str "boom")]])
                       (Some (JS.new_Error "x")))))
           [JS.Object [("message", JS.Str "boom")]] (JS.new_Error "x")).
  - left; reflexivity.
  - discriminate.
  - reflexivity.
Defined.

Lemma consumer_empty_error_silent_witness :
  let err := mkCombinedError (Some []) None in
  let result := mkResult JS.Undefined JS.Null (Some err) in
  error result = Some err
  /\ callback_calls "query" result = [].
Proof.
  cbn zeta. split; [reflexivity |].
  apply (@consumer_empty_error_silent "query"
           (mkResult JS.Undefined JS.Null (Some (mkCombinedError (Some []) None)))
           (mkCombinedError (Some []) None)).
  - reflexivity.
  - reflexivity.
  - reflexivity.
  - right; reflexivity.
  - reflexivity.
Defined.

Lemma buildClient_keeps_endpoint_witness :
  let endpoint := mkEndpoint "https://host/graphql" [("authorization", "token")] in
  let w := fresh_world (JS.Bool true) in
  let c := mkClient "https://host/graphql"
             (mkFetchOptions [("authorization", "token")]
                (Some (mkAgent (JS.Bool true))))
             (defaultExchanges
              ++ [subscriptionExchange (mkWSClient "wss://host/graphql" 3000)])%list in
  buildClient quiet "subscription" endpoint w
  = (Returned c, snd (buildClient quiet "subscription" endpoint w))
  /\ client_url c = "https://host/graphql"
  /\ fetch_headers (fetchOptions c) = [("authorization", "token")]
  /\ firstn 3 (exchanges c) = defaultExchanges.
Proof.
  cbn zeta. split; [reflexivity |].
  apply (@buildClient_keeps_endpoint quiet "subscription"
           (mkEndpoint "https://host/graphql" [("authorization", "token")])
           (fresh_world (JS.Bool true))
           (mkClient "https://host/graphql"
              (mkFetchOptions [("authorization", "token")]
                 (Some (mkAgent (JS.Bool true))))
              (defaultExchanges
               ++ [subscriptionExchange (mkWSClient "wss://host/graphql" 3000)])%list)
           (snd (buildClient quiet "subscription"
                   (mkEndpoint "https://host/graphql" [("authorization", "token")])
                   (fresh_world (JS.Bool true))))).
  reflexivity.
Defined.

Lemma buildClient_invalid_url_witness :
  let endpoint := mkEndpoint "/graphql" [] in
  let w := fresh_world (JS.Bool true) in
  URL_protocol quiet (url endpoint) = None
  /\ (exists e, fst (buildClient quiet "mutation" endpoint w) = Thrown e)
  /\ clients (snd (buildClient quiet "mutation" endpoint w)) = clients w.
Proof.
  cbn zeta. split; [reflexivity |].
  apply (@buildClient_invalid_url quiet "mutation" (mkEndpoint "/graphql" [])
           (fresh_world (JS.Bool true))).
  reflexivity.
Defined.

Lemma buildClient_invalid_url_after_websocket_witness :
  let endpoint := mkEndpoint "/graphql" [] in
  let w := fresh_world (JS.Bool true) in
  URL_protocol quiet (url endpoint) = None
  /\ fst (buildClient quiet "subscription" endpoint w) = Thrown "TypeError: Invalid URL"
  /\ wsClients (snd (buildClient quiet "subscription" endpoint w))
     = [mkWSClient "/graphql" 3000]
  /\ clients (snd (buildClient quiet "subscription" endpoint w)) = [].
Proof.
  cbn zeta. split; [reflexivity |].
  apply (@buildClient_invalid_url_after_websocket quiet (mkEndpoint "/graphql" [])
           (fresh_world (JS.Bool true))).
  - reflexivity.
  - reflexivity.
Defined.

Lemma executeAll_all_dispatched_witness :
  let endpoint := mkEndpoint "http://host/graphql" [] in
  let w := fresh_world (JS.Bool true) in
  let w' := snd (executeAll quiet endpoint (mkDocument []) []
                   [query; subscription; mutation] w) in
  URL_protocol quiet (url endpoint) = Some "http:"
  /\ exists streams,
       subscriptions w' = (subscriptions w ++ streams)%list
       /\ map method streams = [query; subscription; mutation]
       /\ clients w' = (clients w ++ map client streams)%list
       /\ console w' = console w.
Proof.
  cbn zeta. split; [reflexivity |].
  apply (@executeAll_all_dispatched quiet (mkEndpoint "http://host/graphql" [])
           (mkDocument []) [] [query; subscription; mutation]
           (fresh_world (JS.Bool true)) "http:").
  - reflexivity.
  - intros o; reflexivity.
  - intros o; reflexivity.
  - intros m c; reflexivity.
Defined.

Lemma executeOperation_fulfilled_witness :
  let endpoint := mkEndpoint "http://host/graphql" [] in
  let run := executeOperation quiet sample_definitions sample_dependencies sample_gql
               endpoint sample_literal [] tt (fresh_world (JS.Bool true)) in
  fst (fst run) = Fulfilled [tt]
  /\ literal_content (snd (fst run))
     = "fragment F on T { id }" ++ JS.LF ++ "query Q { t { ...F } }".
Proof.
  cbn zeta.
  destruct (@executeOperation_fulfilled quiet unit sample_definitions
              sample_dependencies sample_gql (mkEndpoint "http://host/graphql" [])
              sample_literal [] tt (fresh_world (JS.Bool true))
              [("F", mkFragmentInfo "F" "fragment F on T { id }")]
              [mkFragmentInfo "F" "fragment F on T { id }"]
              (mkDocument []) eq_refl eq_refl eq_refl) as [Hp Hl].
  split; [exact Hp |]. now rewrite Hl.
Defined.

Lemma executeOperation_rejected_untouched_witness :
  let endpoint := mkEndpoint "http://host/graphql" [] in
  let w := fresh_world (JS.Bool true) in
  let run := executeOperation quiet sample_definitions sample_dependencies failing_gql
               endpoint sample_literal [] tt w in
  fst (fst run) = Rejected "GraphQLError: Syntax Error"
  /\ outputChannel (snd run) = [] /\ clients (snd run) = [].
Proof.
  cbn zeta. split; [reflexivity |].
  destruct (@executeOperation_rejected_untouched quiet unit sample_definitions
              sample_dependencies failing_gql (mkEndpoint "http://host/graphql" [])
              sample_literal [] tt (fresh_world (JS.Bool true))
              "GraphQLError: Syntax Error" eq_refl) as [Hw _].
  rewrite Hw. split; reflexivity.
Defined.

Lemma executeOperation_parse_failure_keeps_inlined_witness :
  let endpoint := mkEndpoint "http://host/graphql" [] in
  let w := fresh_world (JS.Bool true) in
  let run := executeOperation quiet sample_definitions sample_dependencies failing_gql
               endpoint sample_literal [] tt w in
  fst (fst run) = Rejected "GraphQLError: Syntax Error"
  /\ literal_content (snd (fst run))
     = "fragment F on T { id }" ++ JS.LF ++ "query Q { t { ...F } }".
Proof.
  cbn zeta.
  destruct (@executeOperation_parse_failure_keeps_inlined quiet unit
              sample_definitions sample_dependencies failing_gql
              (mkEndpoint "http://host/graphql" []) sample_literal [] tt
              (fresh_world (JS.Bool true))
              [("F", mkFragmentInfo "F" "fragment F on T { id }")]
              [mkFragmentInfo "F" "fragment F on T { id }"]
              "GraphQLError: Syntax Error" eq_refl eq_refl eq_refl) as (Hrun & Hl & _).
  split; [now rewrite Hrun | exact Hl].
Defined.

Lemma executeOperation_output_lines_witness :
  let endpoint := mkEndpoint "http://host/graphql" [] in
  let run := executeOperation quiet sample_definitions sample_dependencies sample_gql
               endpoint sample_literal [] tt (fresh_world (JS.Bool true)) in
  outputChannel (snd run)
  = ["NetworkHelper: operation: query"; "NetworkHelper: endpoint: http://host/graphql"].
Proof.
  cbn zeta.
  exact (@executeOperation_output_lines quiet unit sample_definitions
           sample_dependencies sample_gql (mkEndpoint "http://host/graphql" [])
           sample_literal [] tt (fresh_world (JS.Bool true))
           [("F", mkFragmentInfo "F" "fragment F on T { id }")]
           [mkFragmentInfo "F" "fragment F on T { id }"]
           (mkDocument []) eq_refl eq_refl eq_refl).
Defined.

Lemma executeOperation_no_operations_witness :
  let endpoint := mkEndpoint "http://host/graphql" [] in
  let w := fresh_world (JS.Bool true) in
  let run := executeOperation quiet sample_definitions sample_dependencies sample_gql
               endpoint fragments_only_literal [] tt w in
  operations (ast fragments_only_literal) = []
  /\ fst (fst run) = Fulfilled []
  /\ literal_content (snd (fst run))
     = "fragment F on T { id }" ++ JS.LF ++ "fragment G on T { ...F }".
Proof.
  cbn zeta. split; [reflexivity |].
  rewrite (@executeOperation_no_operations quiet unit sample_definitions
             sample_dependencies sample_gql (mkEndpoint "http://host/graphql" [])
             fragments_only_literal [] tt (fresh_world (JS.Bool true))
             [("F", mkFragmentInfo "F" "fragment F on T { id }")]
             [mkFragmentInfo "F" "fragment F on T { id }"]
             (mkDocument []) eq_refl eq_refl eq_refl eq_refl).
  split; reflexivity.
Defined.
